(** * dns-exfil: a shallow embedding of [main.py]

    The program is a small UDP DNS observer.  Its pure part (class
    [DNSLoggerHelper]) works on Python [str] values; its stateful part
    ([DNSLogger], [DNSHandler]) mutates question objects, prints log lines
    and sends replies.  The embedding follows that split: strings are lists
    of Unicode code points, exceptions are an explicit result type, and the
    handler runs in a small monad over a heap of question objects that
    collects the observable events. *)

From Stdlib Require Import ZArith Lia Ascii String.
From stdpp Require Import base decidable option list.

Local Open Scope Z_scope.

(** ** Python strings *)

(** A Python [str] is a sequence of code points, a [bytes] value a sequence
    of integers below 256. *)
Definition str := list Z.
Definition bytes := list Z.

(** Literals are written as Rocq strings and read one code point per
    character. *)
Definition py (s : string) : str :=
  map (fun a => Z.of_N (N_of_ascii a)) (list_ascii_of_string s).

(** Truth value of a string in a condition: non-empty. *)
Definition truthy (s : str) : bool :=
  match s with
  | [] => false
  | _ :: _ => true
  end.

(** [s.startswith(p)] and [s.endswith(p)]. *)
Definition startswith (s p : str) : bool :=
  bool_decide (take (length p) s = p).

Definition endswith (s p : str) : bool :=
  bool_decide (drop (length s - length p) s = p).

(** [s[:stop]]: a negative bound counts from the end, and both directions
    are clamped to the string. *)
Definition slice_to (s : str) (stop : Z) : str :=
  let n := Z.of_nat (length s) in
  let stop' := if stop <? 0 then Z.max 0 (n + stop) else Z.min stop n in
  take (Z.to_nat stop') s.

(** [s.split(sep)] for a one-character separator: never the empty list. *)
Fixpoint split (sep : Z) (s : str) : list str :=
  match s with
  | [] => [[]]
  | c :: s' =>
      if c =? sep then [] :: split sep s'
      else match split sep s' with
           | [] => [[c]]
           | w :: ws => (c :: w) :: ws
           end
  end.

(** [sep.join(parts)]. *)
Fixpoint join (sep : str) (parts : list str) : str :=
  match parts with
  | [] => []
  | [p] => p
  | p :: ps => p ++ sep ++ join sep ps
  end.

Definition dot : Z := 46.

(** ** Exceptions *)

(** The exception classes the program can meet, with their base class. *)
Inductive exc_class :=
  | BaseException | Exception | ValueError | UnicodeError
  | UnicodeDecodeError | DNSError | AttributeError | KeyboardInterrupt.

Definition exc_base (c : exc_class) : option exc_class :=
  match c with
  | BaseException => None
  | Exception => Some BaseException
  | ValueError => Some Exception
  | UnicodeError => Some ValueError
  | UnicodeDecodeError => Some UnicodeError
  | DNSError => Some Exception
  | AttributeError => Some Exception
  | KeyboardInterrupt => Some BaseException
  end.

Definition exc_eqb (c d : exc_class) : bool :=
  match c, d with
  | BaseException, BaseException | Exception, Exception
  | ValueError, ValueError | UnicodeError, UnicodeError
  | UnicodeDecodeError, UnicodeDecodeError | DNSError, DNSError
  | AttributeError, AttributeError
  | KeyboardInterrupt, KeyboardInterrupt => true
  | _, _ => false
  end.

(** [issubclass(c, d)]: walk up the bases of [c]; the hierarchy is five
    levels deep. *)
Fixpoint issubclass_fuel (fuel : nat) (c d : exc_class) : bool :=
  exc_eqb c d ||
  match fuel with
  | O => false
  | S fuel' =>
      match exc_base c with
      | Some b => issubclass_fuel fuel' b d
      | None => false
      end
  end.

Definition issubclass : exc_class -> exc_class -> bool := issubclass_fuel 5.

(** The outcome of an expression: a value or a raised exception. *)
Inductive result (A : Type) :=
  | Ok (a : A)
  | Raise (e : exc_class).
Arguments Ok {A} a.
Arguments Raise {A} e.

Definition rbind {A B} (r : result A) (k : A -> result B) : result B :=
  match r with
  | Ok a => k a
  | Raise e => Raise e
  end.

(** [try: body / except cls: handler]. *)
Definition try_except {A} (body : result A) (cls : exc_class)
    (handler : result A) : result A :=
  match body with
  | Ok a => Ok a
  | Raise e => if issubclass e cls then handler else Raise e
  end.

Fixpoint rmap {A B} (f : A -> result B) (l : list A) : result (list B) :=
  match l with
  | [] => Ok []
  | a :: l' => rbind (f a) (fun b => rbind (rmap f l') (fun bs => Ok (b :: bs)))
  end.

(** ** [bytes.fromhex], [bytes.hex] and the UTF-8 codec *)

(** ASCII whitespace, which [bytes.fromhex] skips between bytes. *)
Definition isspace (c : Z) : bool :=
  (c =? 32) || ((9 <=? c) && (c <=? 13)).

Definition hexval (c : Z) : option Z :=
  if (48 <=? c) && (c <=? 57) then Some (c - 48)
  else if (97 <=? c) && (c <=? 102) then Some (c - 87)
  else if (65 <=? c) && (c <=? 70) then Some (c - 55)
  else None.

(** [bytes.fromhex(s)]: two hex digits per byte, whitespace allowed before
    a byte and at the end; anything else raises [ValueError]. *)
Fixpoint fromhex (s : str) : result bytes :=
  match s with
  | [] => Ok []
  | c :: s' =>
      if isspace c then fromhex s'
      else match hexval c, s' with
           | Some top, d :: s'' =>
               match hexval d with
               | Some bot => rbind (fromhex s'') (fun bs => Ok (top * 16 + bot :: bs))
               | None => Raise ValueError
               end
           | _, _ => Raise ValueError
           end
  end.

Definition hexdigit (v : Z) : Z := if v <? 10 then 48 + v else 87 + v.

(** [b.hex()]: two lower-case digits per byte. *)
Definition hex (b : bytes) : str :=
  flat_map (fun x => [hexdigit (x / 16); hexdigit (x mod 16)]) b.

(** A code point that has a UTF-8 encoding: at most U+10FFFF and not a
    surrogate. *)
Definition is_scalar (c : Z) : Prop :=
  (0 <= c < 55296) \/ (57344 <= c < 1114112).

Definition utf8_encode_char (c : Z) : bytes :=
  if c <? 128 then [c]
  else if c <? 2048 then [192 + c / 64; 128 + c mod 64]
  else if c <? 65536 then [224 + c / 4096; 128 + (c / 64) mod 64; 128 + c mod 64]
  else [240 + c / 262144; 128 + (c / 4096) mod 64; 128 + (c / 64) mod 64;
        128 + c mod 64].

(** [t.encode("utf-8")] on a string of encodable code points. *)
Definition utf8_encode (t : str) : bytes := flat_map utf8_encode_char t.

Definition is_cont (b : Z) : bool := (128 <=? b) && (b <? 192).

(** One character off the front of a byte string, strictly: no overlong
    forms, no surrogates, nothing above U+10FFFF. *)
Definition utf8_decode_char (b : bytes) : option (Z * bytes) :=
  match b with
  | [] => None
  | b0 :: r0 =>
      if (0 <=? b0) && (b0 <? 128) then Some (b0, r0)
      else if (192 <=? b0) && (b0 <? 224) then
        match r0 with
        | b1 :: r1 =>
            let c := (b0 - 192) * 64 + (b1 - 128) in
            if is_cont b1 && (128 <=? c) then Some (c, r1) else None
        | _ => None
        end
      else if (224 <=? b0) && (b0 <? 240) then
        match r0 with
        | b1 :: b2 :: r2 =>
            let c := (b0 - 224) * 4096 + (b1 - 128) * 64 + (b2 - 128) in
            if is_cont b1 && is_cont b2 && (2048 <=? c)
               && negb ((55296 <=? c) && (c <? 57344))
            then Some (c, r2) else None
        | _ => None
        end
      else if (240 <=? b0) && (b0 <? 248) then
        match r0 with
        | b1 :: b2 :: b3 :: r3 =>
            let c := (b0 - 240) * 262144 + (b1 - 128) * 4096
                     + (b2 - 128) * 64 + (b3 - 128) in
            if is_cont b1 && is_cont b2 && is_cont b3
               && (65536 <=? c) && (c <? 1114112)
            then Some (c, r3) else None
        | _ => None
        end
      else None
  end.

(** [b.decode("utf-8")]: every sequence consumes at least one byte, so the
    length of the input is fuel enough. *)
Fixpoint utf8_decode_fuel (fuel : nat) (b : bytes) : result str :=
  match b with
  | [] => Ok []
  | _ :: _ =>
      match fuel with
      | O => Raise UnicodeDecodeError
      | S fuel' =>
          match utf8_decode_char b with
          | Some (c, rest) =>
              rbind (utf8_decode_fuel fuel' rest) (fun t => Ok (c :: t))
          | None => Raise UnicodeDecodeError
          end
      end
  end.

Definition utf8_decode (b : bytes) : result str :=
  utf8_decode_fuel (length b) b.

(** ** class DNSLoggerHelper *)

Definition parse_suffix (suffix : str) : str :=
  let suffix :=
    if truthy suffix && negb (startswith suffix [dot])
    then [dot] ++ suffix else suffix in
  let suffix :=
    if truthy suffix && negb (endswith suffix [dot])
    then suffix ++ [dot] else suffix in
  suffix.

Definition decode_hex (data : str) : result str :=
  try_except (rbind (fromhex data) utf8_decode) ValueError (Ok data).

Definition remove_suffix (data suffix : str) : str :=
  if truthy suffix && endswith data suffix
  then slice_to data (- Z.of_nat (length suffix))
  else data.

(** ** Questions, messages and the heap *)

(** Modelled from the spec: the question record of the DNS library, "an
    opaque wire-level question record exposing a gettable/settable
    fully-qualified name"; the name is kept in its text form. *)
Record DNSQuestion := mkQuestion { qname : str; qtype : Z; qclass : Z }.

(** A DNS message as a value: what the wire codec produces and consumes.
    Everything but the question section is opaque to the program. *)
Record Message := mkMessage {
  msg_header : bytes;
  msg_questions : list DNSQuestion;
  msg_rest : bytes
}.

(** Question objects live on a heap and are reached through references;
    [set_qname] updates one in place. *)
Abbreviation loc := nat (only parsing).
Abbreviation heap := (list DNSQuestion) (only parsing).

(** A [DNSRecord] object: the program never assigns to its attributes, so
    it is carried as a value that holds references to its questions. *)
Record DNSRecord := mkRecord {
  header : bytes;
  questions : list loc;
  rest : bytes
}.

Record address := mkAddress { host : str; port : Z }.

(** What a handler does to the outside world. *)
Inductive event :=
  | EPrint (line : str)
  | EResolve (request : Message)
  | ESendTo (data : bytes) (to : address)
  | EStderr (e : exc_class).

(** Computations over the heap that emit events and may raise. *)
Definition M (A : Type) : Type := heap -> result A * heap * list event.

Definition ret {A} (a : A) : M A := fun h => (Ok a, h, []).

Definition bind {A B} (m : M A) (k : A -> M B) : M B :=
  fun h =>
    match m h with
    | (Ok a, h1, ev1) =>
        match k a h1 with
        | (r, h2, ev2) => (r, h2, ev1 ++ ev2)
        end
    | (Raise e, h1, ev1) => (Raise e, h1, ev1)
    end.

Definition raise {A} (e : exc_class) : M A := fun h => (Raise e, h, []).

Definition lift {A} (r : result A) : M A := fun h => (r, h, []).

Definition emit (e : event) : M unit := fun h => (Ok tt, h, [e]).

Notation "x <- m ;; k" := (bind m (fun x => k))
  (at level 100, m at next level, right associativity).
Notation "m ;;; k" := (bind m (fun _ => k))
  (at level 100, right associativity).

Fixpoint mmap {A B} (f : A -> M B) (l : list A) : M (list B) :=
  match l with
  | [] => ret []
  | a :: l' => b <- f a ;; bs <- mmap f l' ;; ret (b :: bs)
  end.

(** [try: body / except cls: handler(e)] for heap computations. *)
Definition try_exceptM {A} (body : M A) (cls : exc_class)
    (handler : exc_class -> M A) : M A :=
  fun h =>
    match body h with
    | (Ok a, h1, ev1) => (Ok a, h1, ev1)
    | (Raise e, h1, ev1) =>
        if issubclass e cls
        then match handler e h1 with
             | (r, h2, ev2) => (r, h2, ev1 ++ ev2)
             end
        else (Raise e, h1, ev1)
    end.

Definition alloc (q : DNSQuestion) : M loc :=
  fun h => (Ok (length h), h ++ [q], []).

Definition deref (l : loc) : M DNSQuestion :=
  fun h =>
    match h !! l with
    | Some q => (Ok q, h, [])
    | None => (Raise AttributeError, h, [])
    end.

(** [str(question.get_qname())] *)
Definition get_qname (question : loc) : M str :=
  q <- deref question ;; ret (qname q).

(** Letters, digits and the hyphen. *)
Definition is_ldh (c : Z) : bool :=
  ((97 <=? c) && (c <=? 122)) || ((65 <=? c) && (c <=? 90))
  || ((48 <=? c) && (c <=? 57)) || (c =? 45).

(** A name written with letters, digits, hyphens and separators only. *)
Definition plain_name (text : str) : bool :=
  forallb (fun c => is_ldh c || (c =? dot)) text.

(** [str(DNSLabel(text))]: the text of the name the DNS library builds
    from a string.  The empty string and the lone separator give the
    root.  Otherwise the string goes through Python's [idna] codec, which
    raises [UnicodeError] for an empty label before the last one and for
    a label of 64 characters or more.  A plain name is then kept as it
    is, one trailing separator apart, which the text form always has.
    What becomes of any other string (escapes, characters outside ASCII)
    is left to [DNSLabel_other]. *)
Definition DNSLabel_text (DNSLabel_other : str -> result str) (text : str)
    : result str :=
  if negb (truthy text) || bool_decide (text = [dot]) then Ok [dot]
  else
    let labels := split dot text in
    if existsb (fun w => negb (truthy w)) (removelast labels)
    then Raise UnicodeError
    else if plain_name text then
      if forallb (fun w => Z.of_nat (length w) <? 64) labels
      then Ok (if endswith text [dot] then text else text ++ [dot])
      else Raise UnicodeError
    else DNSLabel_other text.

(** [question.set_qname(name)]: the question takes the name the library
    builds from the string; when that raises, the question is as
    before. *)
Definition set_qname (DNSLabel_other : str -> result str) (question : loc)
    (name : str) : M unit :=
  fun h =>
    match h !! question with
    | Some q =>
        match DNSLabel_text DNSLabel_other name with
        | Ok name' =>
            (Ok tt, <[question := mkQuestion name' (qtype q) (qclass q)]> h,
             [])
        | Raise e => (Raise e, h, [])
        end
    | None => (Raise AttributeError, h, [])
    end.

(** [DNSQuestion()]: the root name, type A, class IN. *)
Definition default_question : DNSQuestion := mkQuestion [dot] 1 1.

(** [record.get_q()]: the first question, or a new default one when the
    question section is empty. *)
Definition get_q (record : DNSRecord) : M loc :=
  match questions record with
  | q :: _ => ret q
  | [] => alloc default_question
  end.

(** [deepcopy(record)]: a new record whose questions are new objects.
    (The records of this program come from [DNSRecord.parse], which never
    stores one question object twice.) *)
Definition deepcopy (record : DNSRecord) : M DNSRecord :=
  qs <- mmap (fun l => q <- deref l ;; alloc q) (questions record) ;;
  ret (mkRecord (header record) qs (rest record)).

(** The message a record stands for at this moment. *)
Definition read_record (record : DNSRecord) : M Message :=
  qs <- mmap deref (questions record) ;;
  ret (mkMessage (header record) qs (rest record)).

(** ** class DNSLogger *)

Record DNSLogger := mkLogger { suffix : str; hex_encoded : bool }.

(** [DNSLogger.__init__] *)
Definition DNSLogger_init (suffix : str) (hex_encoded : bool) : DNSLogger :=
  mkLogger (parse_suffix suffix) hex_encoded.

Definition parse_question (DNSLabel_other : str -> result str)
    (self : DNSLogger) (question : loc) : M loc :=
  if negb (hex_encoded self) then ret question
  else
    qname <- get_qname question ;;
    let suffixed := remove_suffix qname (suffix self) in
    subdomains <- lift (rmap decode_hex (split dot suffixed)) ;;
    set_qname DNSLabel_other question
      (join [dot] subdomains ++ suffix self) ;;;
    ret question.

Section Server.

(** The collaborators the program takes from its libraries: the wire
    codec ([DNSRecord.parse], [pack]), the resolver, the textual forms of
    a question and of a peer address, and what the DNS library makes of a
    name that is not plain. *)
Variable DNSLabel_other : str -> result str.
Variable wire_parse : bytes -> option Message.
Variable pack : Message -> bytes.
Variable resolve : Message -> result Message.
Variable question_str : DNSQuestion -> str.
Variable address_str : address -> str.

(** [print(line)] *)
Definition print (line : str) : M unit := emit (EPrint line).

Definition log (self : DNSLogger) (sender : address)
    (parsed_req : DNSRecord) : M unit :=
  question <-
    (q <- get_q parsed_req ;; parse_question DNSLabel_other self q) ;;
  q <- deref question ;;
  print (address_str sender ++ py ": " ++ question_str q).

(** [DNSRecord.parse(data)]: a new record with new question objects, or
    [DNSError]. *)
Definition DNSRecord_parse (data : bytes) : M DNSRecord :=
  match wire_parse data with
  | Some m =>
      qs <- mmap alloc (msg_questions m) ;;
      ret (mkRecord (msg_header m) qs (msg_rest m))
  | None => raise DNSError
  end.

(** [resolver.resolve(request, handler)]: the resolver sees the request
    as it is when it is called. *)
Definition call_resolve (request : DNSRecord) : M Message :=
  req <- read_record request ;;
  emit (EResolve req) ;;;
  lift (resolve req).

(** [connection.sendto(data, to)] *)
Definition sendto (data : bytes) (to : address) : M unit :=
  emit (ESendTo data to).

(** ** class DNSHandler *)

Definition handle (logger : DNSLogger) (data : bytes)
    (client_address : address) : M unit :=
  parsed_req <- DNSRecord_parse data ;;
  copy <- deepcopy parsed_req ;;
  log logger client_address copy ;;;
  response <- call_resolve parsed_req ;;
  sendto (pack response) client_address.

(** The same handler without the [deepcopy], to compare with. *)
Definition handle_nocopy (logger : DNSLogger) (data : bytes)
    (client_address : address) : M unit :=
  parsed_req <- DNSRecord_parse data ;;
  log logger client_address parsed_req ;;;
  response <- call_resolve parsed_req ;;
  sendto (pack response) client_address.

(** ** class ThreadedUDPServer *)

(** [ThreadingMixIn.process_request_thread]: the handler runs inside
    [try: ... except Exception: self.handle_error(...)], and
    [handle_error] writes the traceback to stderr. *)
Definition process_request_thread (logger : DNSLogger) (data : bytes)
    (client_address : address) : M unit :=
  try_exceptM (handle logger data client_address) Exception
    (fun e => emit (EStderr e)).

(** [serve_forever] over the datagrams that arrive: each one is handed
    to its own handler; whatever a handler raises stays in its thread.
    The threads run side by side and share only the output sinks; the
    list gives the datagrams in one order in which their handlers may
    take effect, and the events of a handler are kept together.  The
    properties below are stated for every such order. *)
Fixpoint serve_forever (logger : DNSLogger)
    (incoming : list (bytes * address)) (h : heap) : heap * list event :=
  match incoming with
  | [] => (h, [])
  | (data, client_address) :: later =>
      match process_request_thread logger data client_address h with
      | (_, h1, ev1) =>
          match serve_forever logger later h1 with
          | (h2, ev2) => (h2, ev1 ++ ev2)
          end
      end
  end.

End Server.

(** Observations on a trace. *)
Definition replies (evs : list event) : list (bytes * address) :=
  flat_map (fun e => match e with ESendTo d a => [(d, a)] | _ => [] end) evs.

Definition printed (evs : list event) : list str :=
  flat_map (fun e => match e with EPrint l => [l] | _ => [] end) evs.

Definition resolved (evs : list event) : list Message :=
  flat_map (fun e => match e with EResolve m => [m] | _ => [] end) evs.

(** ** Vocabulary of the properties *)

(** A string whose first character is the separator and whose second, if
    any, is not. *)
Definition begins_with_single_dot (s : str) : Prop :=
  exists r, s = dot :: r /\ startswith r [dot] = false.

Definition is_byte (b : Z) : Prop := 0 <= b < 256.

(** A valid hex string in the words of the specification: hexadecimal
    digits only, and an even number of them. *)
Definition is_hex_string (x : str) : Prop :=
  Nat.Even (length x) /\ Forall (fun c => hexval c <> None) x.

Definition no_space (x : str) : Prop := Forall (fun c => isspace c = false) x.

(** What [decode_hex] returns, given that it raises nothing. *)
Definition decode_hex_value (label : str) : str :=
  match decode_hex label with
  | Ok s => s
  | Raise _ => label
  end.

(** The string [parse_question] hands to [set_qname], as a function of
    the name it finds in the question. *)
Definition render_text (self : DNSLogger) (name : str) : str :=
  join [dot]
    (map decode_hex_value (split dot (remove_suffix name (suffix self))))
  ++ suffix self.

(** The question [parse_question] leaves behind, or what it raises. *)
Definition render (DNSLabel_other : str -> result str) (self : DNSLogger)
    (q : DNSQuestion) : result DNSQuestion :=
  if hex_encoded self
  then rbind (DNSLabel_text DNSLabel_other (render_text self (qname q)))
         (fun name => Ok (mkQuestion name (qtype q) (qclass q)))
  else Ok q.

(** A label of 1 to 63 letters, digits and hyphens. *)
Definition plain_label (w : str) : bool :=
  forallb is_ldh w && (0 <? Z.of_nat (length w))
  && (Z.of_nat (length w) <? 64).

(** The question [get_q] yields for a message. *)
Definition first_question (m : Message) : DNSQuestion :=
  match msg_questions m with
  | q :: _ => q
  | [] => default_question
  end.

(** A small codec and resolver to run the handler on concrete datagrams:
    a datagram is the text of one question name, the empty datagram does
    not parse, and the resolver echoes the request. *)
Definition sample_parse (data : bytes) : option Message :=
  match data with
  | [] => None
  | _ :: _ => Some (mkMessage [0; 1] [mkQuestion data 1 1] [])
  end.

Definition sample_pack (m : Message) : bytes :=
  msg_header m ++ flat_map qname (msg_questions m) ++ msg_rest m.

Definition sample_resolve (m : Message) : result Message := Ok m.

Definition sample_DNSLabel_other (text : str) : result str :=
  Raise UnicodeError.

Definition sample_question_str (q : DNSQuestion) : str := qname q.

Definition sample_address_str (a : address) : str := host a.

Definition sample_sender : address := mkAddress (py "10.0.0.7") 40000.

Definition sample_logger : DNSLogger := DNSLogger_init (py "c2.test") true.

(** ASCII lower-casing of one character, as [str.lower] does it on ASCII
    text. *)
Definition ascii_lower (c : Z) : Z :=
  if (65 <=? c) && (c <=? 90) then c + 32 else c.

(** What the server sends and prints for one datagram, read off
    [handle]: the log line of a datagram that parses and whose question
    is rendered, and the reply to such a datagram when the resolver
    answers. *)
Definition reply_of (DNSLabel_other : str -> result str)
    (wire_parse : bytes -> option Message) (pack : Message -> bytes)
    (resolve : Message -> result Message) (logger : DNSLogger)
    (d : bytes * address) : list (bytes * address) :=
  match wire_parse d.1 with
  | Some m =>
      match render DNSLabel_other logger (first_question m), resolve m with
      | Ok _, Ok response => [(pack response, d.2)]
      | _, _ => []
      end
  | None => []
  end.

Definition line_of (DNSLabel_other : str -> result str)
    (wire_parse : bytes -> option Message)
    (question_str : DNSQuestion -> str) (address_str : address -> str)
    (logger : DNSLogger) (d : bytes * address) : list str :=
  match wire_parse d.1 with
  | Some m =>
      match render DNSLabel_other logger (first_question m) with
      | Ok q => [address_str d.2 ++ py ": " ++ question_str q]
      | Raise _ => []
      end
  | None => []
  end.

(** * Properties *)

(** ** The helpers on the inputs of the specification *)

Example parse_suffix_bare :
  parse_suffix (py "example.com") = py ".example.com.".
Proof. reflexivity. Qed.

Example parse_suffix_dotted_already :
  parse_suffix (py ".example.com.") = py ".example.com.".
Proof. reflexivity. Qed.

Example decode_hex_hello : decode_hex (py "68656c6c6f") = Ok (py "hello").
Proof. vm_compute. reflexivity. Qed.

Example decode_hex_two_byte_char : decode_hex (py "c3a9") = Ok [233].
Proof. vm_compute. reflexivity. Qed.

Example decode_hex_surrogate_bytes : decode_hex (py "eda080") = Ok (py "eda080").
Proof. vm_compute. reflexivity. Qed.

Example decode_hex_empty : decode_hex [] = Ok [].
Proof. reflexivity. Qed.

Example remove_suffix_match :
  remove_suffix (py "foo.example.com.") (py ".example.com.") = py "foo".
Proof. vm_compute. reflexivity. Qed.

Example split_keeps_empty_labels :
  split dot (py "a..b.") = [py "a"; []; py "b"; []].
Proof. reflexivity. Qed.

(** ** Prefixes and suffixes *)

Lemma startswith_prefix (s p : str) :
  startswith s p = true <-> exists r, s = p ++ r.
Proof.
  unfold startswith. rewrite bool_decide_eq_true. split.
  - intros H. exists (drop (length p) s).
    transitivity (take (length p) s ++ drop (length p) s).
    + symmetry. apply take_drop.
    + now rewrite H.
  - intros [r ->]. apply take_app_length.
Qed.

Lemma endswith_suffix (s p : str) :
  endswith s p = true <-> exists r, s = r ++ p.
Proof.
  unfold endswith. rewrite bool_decide_eq_true. split.
  - intros H. exists (take (length s - length p) s).
    transitivity (take (length s - length p) s ++ drop (length s - length p) s).
    + symmetry. apply take_drop.
    + now rewrite H.
  - intros [r ->]. rewrite length_app.
    replace (length r + length p - length p)%nat with (length r) by lia.
    apply drop_app_length.
Qed.

Lemma startswith_cons (c : Z) (s : str) (d : Z) :
  startswith (c :: s) [d] = bool_decide (c = d).
Proof.
  unfold startswith. simpl. rewrite take_0.
  apply bool_decide_ext. split; congruence.
Qed.

Lemma startswith_app (s r p : str) :
  startswith s p = true -> startswith (s ++ r) p = true.
Proof.
  rewrite !startswith_prefix. intros [t ->]. exists (t ++ r).
  now rewrite app_assoc.
Qed.

Lemma endswith_snoc (s : str) (d : Z) : endswith (s ++ [d]) [d] = true.
Proof. apply endswith_suffix. now exists s. Qed.

Lemma endswith_cons (c : Z) (s p : str) :
  endswith s p = true -> endswith (c :: s) p = true.
Proof.
  rewrite !endswith_suffix. intros [t ->]. now exists (c :: t).
Qed.

Lemma truthy_true (s : str) : truthy s = true <-> s <> [].
Proof. destruct s; simpl; split; congruence. Qed.


(** ** [parse_suffix] *)

Lemma parse_suffix_empty : parse_suffix [] = [].
Proof. reflexivity. Qed.

Lemma parse_suffix_unfold (s : str) :
  s <> [] ->
  parse_suffix s =
    let s1 := if startswith s [dot] then s else dot :: s in
    if endswith s1 [dot] then s1 else s1 ++ [dot].
Proof.
  intros Hs. unfold parse_suffix.
  destruct s as [|c s]; [congruence|]. cbn [truthy andb].
  destruct (startswith (c :: s) [dot]); cbn [negb app];
    match goal with |- context [endswith ?x [dot]] =>
      destruct (endswith x [dot]) end; reflexivity.
Qed.

Lemma parse_suffix_fixpoint (s : str) :
  startswith s [dot] = true -> endswith s [dot] = true -> parse_suffix s = s.
Proof.
  intros Hp He. unfold parse_suffix.
  rewrite Hp, andb_false_r. now rewrite He, andb_false_r.
Qed.

Lemma parse_suffix_dotted (s : str) :
  s <> [] ->
  startswith (parse_suffix s) [dot] = true /\
  endswith (parse_suffix s) [dot] = true.
Proof.
  intros Hs. rewrite parse_suffix_unfold by assumption. cbv zeta.
  set (s1 := if startswith s [dot] then s else dot :: s).
  assert (H1 : startswith s1 [dot] = true).
  { subst s1. destruct (startswith s [dot]) eqn:E; [assumption|].
    rewrite startswith_cons. now apply bool_decide_eq_true. }
  destruct (endswith s1 [dot]) eqn:E1.
  - now split.
  - split; [now apply startswith_app | apply endswith_snoc].
Qed.

Lemma parse_suffix_nil_iff (s : str) : parse_suffix s = [] <-> s = [].
Proof.
  split; [|intros ->; reflexivity].
  intros H. destruct s as [|c s]; [reflexivity|exfalso].
  destruct (parse_suffix_dotted (c :: s)) as [Hp _]; [congruence|].
  rewrite H in Hp. discriminate.
Qed.

(** C5: normalising a suffix twice gives the same string as normalising
    it once, for every input string. *)
Theorem parse_suffix_idempotent (s : str) :
  parse_suffix (parse_suffix s) = parse_suffix s.
Proof.
  destruct s as [|c s]; [reflexivity|].
  destruct (parse_suffix_dotted (c :: s)) as [Hp He]; [congruence|].
  now apply parse_suffix_fixpoint.
Qed.

(** C6, as stated, fails on an input that already begins with two
    separators: nothing is removed, so the output begins with two as
    well. *)
Lemma parse_suffix_keeps_double_dot :
  parse_suffix (py "..example.com") = py "..example.com." /\
  parse_suffix (py "..example.com") <> [] /\
  ~ begins_with_single_dot (parse_suffix (py "..example.com")).
Proof.
  split; [reflexivity|]. split; [discriminate|].
  intros [r [Hr Hd]]. injection Hr as <-. discriminate Hd.
Qed.

(** C6, amended: the output is empty exactly when the input is; a
    non-empty output begins with the separator and ends with it; and its
    leading separator is a single one whenever the input does not itself
    begin with two separators. *)
Theorem parse_suffix_canonical (s : str) :
  (parse_suffix s = [] <-> s = []) /\
  (parse_suffix s <> [] ->
     startswith (parse_suffix s) [dot] = true /\
     endswith (parse_suffix s) [dot] = true /\
     (startswith s [dot; dot] = false ->
        begins_with_single_dot (parse_suffix s))).
Proof.
  split; [apply parse_suffix_nil_iff|].
  intros Hne.
  assert (Hs : s <> []) by (intros ->; now apply Hne).
  destruct (parse_suffix_dotted s Hs) as [Hp He].
  split; [assumption|]. split; [assumption|].
  intros Hdd. rewrite parse_suffix_unfold by assumption. cbv zeta.
  destruct s as [|c s]; [congruence|].
  rewrite startswith_cons. case_bool_decide as Hc.
  - subst c. destruct s as [|d s].
    + exists []. now split.
    + assert (Hd : d <> dot).
      { intros ->. discriminate Hdd. }
      assert (Hsd : startswith (d :: s) [dot] = false).
      { rewrite startswith_cons. now apply bool_decide_eq_false. }
      destruct (endswith (dot :: d :: s) [dot]).
      * exists (d :: s). now split.
      * exists ((d :: s) ++ [dot]). split; [reflexivity|].
        cbn [app]. rewrite startswith_cons. now apply bool_decide_eq_false.
  - assert (Hsd : forall t, startswith (c :: t) [dot] = false).
    { intros t. rewrite startswith_cons. now apply bool_decide_eq_false. }
    destruct (endswith (dot :: c :: s) [dot]).
    + exists (c :: s). now split.
    + exists ((c :: s) ++ [dot]). split; [reflexivity|]. apply Hsd.
Qed.

Lemma parse_suffix_canonical_witness :
  parse_suffix (py "example.com") = py ".example.com." /\
  startswith (parse_suffix (py "example.com")) [dot] = true /\
  endswith (parse_suffix (py "example.com")) [dot] = true /\
  begins_with_single_dot (parse_suffix (py "example.com")).
Proof.
  split; [reflexivity|].
  destruct (parse_suffix_canonical (py "example.com")) as [_ H].
  destruct H as (Hp & He & Hs); [discriminate|].
  split; [exact Hp|]. split; [exact He|]. apply Hs. reflexivity.
Defined.

(** ** [remove_suffix] *)

Lemma slice_to_neg_app (r p : str) :
  p <> [] -> slice_to (r ++ p) (- Z.of_nat (length p)) = r.
Proof.
  intros Hp. unfold slice_to.
  assert (0 < Z.of_nat (length p)) by (destruct p; [congruence|simpl; lia]).
  destruct (Z.ltb_spec (- Z.of_nat (length p)) 0) as [_|]; [|lia].
  rewrite length_app.
  replace (Z.to_nat _) with (length r) by lia.
  apply take_app_length.
Qed.

Lemma remove_suffix_strips (r suffix : str) :
  suffix <> [] -> remove_suffix (r ++ suffix) suffix = r.
Proof.
  intros Hs. unfold remove_suffix.
  apply truthy_true in Hs as Ht. rewrite Ht.
  assert (He : endswith (r ++ suffix) suffix = true)
    by (apply endswith_suffix; now exists r).
  rewrite He. cbn [andb]. now apply slice_to_neg_app.
Qed.

Lemma remove_suffix_keeps (name suffix : str) :
  suffix = [] \/ ~ (exists r, name = r ++ suffix) ->
  remove_suffix name suffix = name.
Proof.
  unfold remove_suffix. intros [-> | Hno]; [reflexivity|].
  destruct (endswith name suffix) eqn:He.
  - exfalso. apply Hno. now apply endswith_suffix.
  - now rewrite andb_false_r.
Qed.

(** C7: when the suffix is non-empty and the name ends with it, the result
    is the name without exactly that trailing occurrence; with an empty
    suffix or no trailing match the name comes back unchanged. *)
Theorem remove_suffix_spec (name suffix : str) :
  (suffix <> [] ->
     forall r, name = r ++ suffix -> remove_suffix name suffix = r) /\
  (suffix = [] \/ ~ (exists r, name = r ++ suffix) ->
     remove_suffix name suffix = name).
Proof.
  split.
  - intros Hs r ->. now apply remove_suffix_strips.
  - apply remove_suffix_keeps.
Qed.

Lemma remove_suffix_spec_witness :
  remove_suffix (py "foo.example.com.") (py ".example.com.") = py "foo" /\
  remove_suffix (py "foo.bar.") [] = py "foo.bar.".
Proof.
  destruct (remove_suffix_spec (py "foo.example.com.") (py ".example.com."))
    as [H _].
  destruct (remove_suffix_spec (py "foo.bar.") []) as [_ H'].
  split.
  - apply H; [discriminate|reflexivity].
  - apply H'. left. reflexivity.
Defined.

Example remove_suffix_no_match :
  remove_suffix (py "foo.bar.") (py ".baz.") = py "foo.bar.".
Proof. reflexivity. Qed.

(** ** [bytes.fromhex] and [bytes.hex] *)

Lemma str_pair_ind (P : str -> Prop) :
  P [] ->
  (forall c, P [c]) ->
  (forall c d s, P s -> P (d :: s) -> P (c :: d :: s)) ->
  forall s, P s.
Proof.
  intros H0 H1 H2 s.
  enough (P s /\ forall c, P (c :: s)) by tauto.
  induction s as [|d s [IH1 IH2]]; split; auto.
Qed.

Lemma fromhex_raises_ValueError (s : str) (e : exc_class) :
  fromhex s = Raise e -> e = ValueError.
Proof.
  revert e. induction s as [|c|c d s IH1 IH2] using str_pair_ind; intros e.
  - discriminate.
  - cbn. destruct (isspace c); [discriminate|].
    destruct (hexval c); congruence.
  - cbn [fromhex]. destruct (isspace c); [apply IH2|].
    destruct (hexval c); [|congruence].
    destruct (hexval d); [|congruence].
    destruct (fromhex s) eqn:E; cbn; [discriminate|].
    intros [= <-]. now apply IH1.
Qed.

Lemma hexdigit_not_space (v : Z) : 0 <= v < 16 -> isspace (hexdigit v) = false.
Proof. unfold isspace, hexdigit. intros Hv. destruct (Z.ltb_spec v 10); lia. Qed.

Lemma hexval_hexdigit (v : Z) : 0 <= v < 16 -> hexval (hexdigit v) = Some v.
Proof.
  unfold hexval, hexdigit. intros Hv.
  destruct (Z.ltb_spec v 10).
  - replace ((48 <=? 48 + v) && (48 + v <=? 57)) with true by lia.
    f_equal. lia.
  - replace ((48 <=? 87 + v) && (87 + v <=? 57)) with false by lia.
    replace ((97 <=? 87 + v) && (87 + v <=? 102)) with true by lia.
    f_equal. lia.
Qed.

Lemma fromhex_hex (b : bytes) : Forall is_byte b -> fromhex (hex b) = Ok b.
Proof.
  induction 1 as [|x b Hx _ IH]; [reflexivity|].
  unfold hex in *. cbn [flat_map app fromhex].
  assert (Hq : 0 <= x / 16 < 16) by (unfold is_byte in Hx; Z.div_mod_to_equations; lia).
  assert (Hr : 0 <= x mod 16 < 16) by (Z.div_mod_to_equations; lia).
  rewrite hexdigit_not_space, !hexval_hexdigit by assumption.
  rewrite IH. cbn. do 2 f_equal. Z.div_mod_to_equations; lia.
Qed.

(** ** The UTF-8 codec *)

Ltac split_bounds :=
  repeat match goal with
    | |- context [?a <=? ?b] => destruct (Z.leb_spec a b)
    | |- context [?a <? ?b] => destruct (Z.ltb_spec a b)
    end.

Lemma utf8_encode_char_bytes (c : Z) :
  is_scalar c -> Forall is_byte (utf8_encode_char c).
Proof.
  unfold is_scalar, utf8_encode_char, is_byte. intros Hc.
  split_bounds; repeat constructor; Z.div_mod_to_equations; lia.
Qed.

Lemma utf8_decode_encode_char (c : Z) (rest : bytes) :
  is_scalar c ->
  utf8_decode_char (utf8_encode_char c ++ rest) = Some (c, rest).
Proof.
  unfold is_scalar, utf8_encode_char. intros Hc.
  destruct (Z.ltb_spec c 128); [|destruct (Z.ltb_spec c 2048);
    [|destruct (Z.ltb_spec c 65536)]]; cbn [app utf8_decode_char]; unfold is_cont.
  - replace ((0 <=? c) && (c <? 128)) with true by lia. reflexivity.
  - pose proof (Z.div_mod c 64 ltac:(lia)).
    pose proof (Z.mod_pos_bound c 64 ltac:(lia)).
    set (q := c / 64) in *. set (r := c mod 64) in *.
    replace ((0 <=? 192 + q) && (192 + q <? 128)) with false by lia.
    replace ((192 <=? 192 + q) && (192 + q <? 224)) with true by lia.
    replace ((128 <=? 128 + r) && (128 + r <? 192)) with true by lia.
    replace (128 <=? (192 + q - 192) * 64 + (128 + r - 128)) with true by lia.
    cbn. do 2 f_equal. lia.
  - pose proof (Z.div_mod c 64 ltac:(lia)).
    pose proof (Z.mod_pos_bound c 64 ltac:(lia)).
    pose proof (Z.div_mod (c / 64) 64 ltac:(lia)).
    pose proof (Z.mod_pos_bound (c / 64) 64 ltac:(lia)).
    assert (c / 4096 = c / 64 / 64) by (rewrite Z.div_div by lia; reflexivity).
    set (q := c / 64) in *. set (r := c mod 64) in *.
    set (q2 := q / 64) in *. set (r2 := q mod 64) in *.
    set (q3 := c / 4096) in *.
    replace ((0 <=? 224 + q3) && (224 + q3 <? 128)) with false by lia.
    replace ((192 <=? 224 + q3) && (224 + q3 <? 224)) with false by lia.
    replace ((224 <=? 224 + q3) && (224 + q3 <? 240)) with true by lia.
    replace ((128 <=? 128 + r2) && (128 + r2 <? 192)) with true by lia.
    replace ((128 <=? 128 + r) && (128 + r <? 192)) with true by lia.
    replace ((224 + q3 - 224) * 4096 + (128 + r2 - 128) * 64 + (128 + r - 128))
      with c by lia.
    replace (2048 <=? c) with true by lia.
    replace ((55296 <=? c) && (c <? 57344)) with false by lia.
    reflexivity.
  - pose proof (Z.div_mod c 64 ltac:(lia)).
    pose proof (Z.mod_pos_bound c 64 ltac:(lia)).
    pose proof (Z.div_mod (c / 64) 64 ltac:(lia)).
    pose proof (Z.mod_pos_bound (c / 64) 64 ltac:(lia)).
    pose proof (Z.div_mod (c / 4096) 64 ltac:(lia)).
    pose proof (Z.mod_pos_bound (c / 4096) 64 ltac:(lia)).
    assert (c / 4096 = c / 64 / 64) by (rewrite Z.div_div by lia; reflexivity).
    assert (c / 262144 = c / 4096 / 64) by (rewrite Z.div_div by lia; reflexivity).
    set (q := c / 64) in *. set (r := c mod 64) in *.
    set (r2 := q mod 64) in *. set (q3 := c / 4096) in *.
    set (r3 := q3 mod 64) in *. set (q4 := c / 262144) in *.
    replace ((0 <=? 240 + q4) && (240 + q4 <? 128)) with false by lia.
    replace ((192 <=? 240 + q4) && (240 + q4 <? 224)) with false by lia.
    replace ((224 <=? 240 + q4) && (240 + q4 <? 240)) with false by lia.
    replace ((240 <=? 240 + q4) && (240 + q4 <? 248)) with true by lia.
    replace ((128 <=? 128 + r3) && (128 + r3 <? 192)) with true by lia.
    replace ((128 <=? 128 + r2) && (128 + r2 <? 192)) with true by lia.
    replace ((128 <=? 128 + r) && (128 + r <? 192)) with true by lia.
    replace ((240 + q4 - 240) * 262144 + (128 + r3 - 128) * 4096
             + (128 + r2 - 128) * 64 + (128 + r - 128)) with c by lia.
    replace (65536 <=? c) with true by lia.
    replace (c <? 1114112) with true by lia.
    reflexivity.
Qed.

Lemma utf8_encode_char_nonempty (c : Z) : utf8_encode_char c <> [].
Proof. unfold utf8_encode_char. split_bounds; discriminate. Qed.

Lemma utf8_encode_bytes (t : str) :
  Forall is_scalar t -> Forall is_byte (utf8_encode t).
Proof.
  induction 1 as [|c t Hc _ IH]; [constructor|].
  unfold utf8_encode in *. cbn [flat_map].
  apply Forall_app. split; [now apply utf8_encode_char_bytes|assumption].
Qed.

Lemma utf8_decode_fuel_encode (t : str) :
  Forall is_scalar t ->
  forall fuel, (length (utf8_encode t) <= fuel)%nat ->
  utf8_decode_fuel fuel (utf8_encode t) = Ok t.
Proof.
  induction 1 as [|c t Hc _ IH]; intros fuel Hfuel.
  - destruct fuel; reflexivity.
  - unfold utf8_encode in *. cbn [flat_map] in *.
    pose proof (utf8_encode_char_nonempty c) as Hne.
    rewrite length_app in Hfuel.
    destruct (utf8_encode_char c) as [|b0 bs] eqn:E; [congruence|].
    destruct fuel as [|fuel]; [cbn in Hfuel; lia|].
    cbn [app utf8_decode_fuel].
    change (b0 :: bs ++ flat_map utf8_encode_char t)
      with ((b0 :: bs) ++ flat_map utf8_encode_char t).
    rewrite <- E, utf8_decode_encode_char by assumption.
    rewrite IH by (cbn in Hfuel; lia). reflexivity.
Qed.

Lemma utf8_decode_encode (t : str) :
  Forall is_scalar t -> utf8_decode (utf8_encode t) = Ok t.
Proof. intros Ht. now apply utf8_decode_fuel_encode. Qed.

Lemma utf8_decode_char_shorter (b rest : bytes) (c : Z) :
  utf8_decode_char b = Some (c, rest) -> (length rest < length b)%nat.
Proof.
  unfold utf8_decode_char. intros H.
  repeat case_match; simplify_eq; cbn [length]; lia.
Qed.

(** The fuel of [utf8_decode] never runs out: any amount that covers the
    length of the input gives the same answer. *)
Lemma utf8_decode_fuel_enough (fuel : nat) (b : bytes) :
  (length b <= fuel)%nat -> utf8_decode_fuel fuel b = utf8_decode b.
Proof.
  unfold utf8_decode.
  enough (H : forall f1 f2 (x : bytes),
             (length x <= f1)%nat -> (length x <= f2)%nat ->
             utf8_decode_fuel f1 x = utf8_decode_fuel f2 x)
    by (intros Hf; now apply H).
  induction f1 as [|f1 IH]; intros f2 [|b0 x] H1 H2;
    try (destruct f2; reflexivity); cbn [length] in *; try lia.
  destruct f2 as [|f2]; [lia|]. cbn [utf8_decode_fuel].
  destruct (utf8_decode_char (b0 :: x)) as [[c rest]|] eqn:E; [|reflexivity].
  apply utf8_decode_char_shorter in E. cbn [length] in E.
  now rewrite (IH f2 rest) by lia.
Qed.

Lemma utf8_decode_raises (b : bytes) (e : exc_class) :
  utf8_decode b = Raise e -> e = UnicodeDecodeError.
Proof.
  unfold utf8_decode. generalize (length b) as fuel. intros fuel.
  revert b e. induction fuel as [|fuel IH]; intros [|b0 b] e; cbn [utf8_decode_fuel];
    try discriminate; try congruence.
  destruct (utf8_decode_char (b0 :: b)) as [[c rest]|]; [|congruence].
  destruct (utf8_decode_fuel fuel rest) eqn:E; cbn; [discriminate|].
  intros [= <-]. now apply (IH rest).
Qed.

(** ** [decode_hex] *)

Lemma fromhex_rejects (x : str) :
  no_space x -> ~ is_hex_string x -> fromhex x = Raise ValueError.
Proof.
  unfold no_space, is_hex_string.
  induction x as [|c|c d s IH1 _] using str_pair_ind; intros Hsp Hnot.
  - exfalso. apply Hnot. split; [exists 0%nat; reflexivity|constructor].
  - cbn. apply Forall_cons in Hsp as [-> _]. now destruct (hexval c).
  - apply Forall_cons in Hsp as [Hc Hsp].
    apply Forall_cons in Hsp as [_ Hsp].
    cbn [fromhex]. rewrite Hc.
    destruct (hexval c) eqn:Ec; [|reflexivity].
    destruct (hexval d) eqn:Ed; [|reflexivity].
    rewrite IH1; [reflexivity|assumption|].
    intros [[k Hk] Hall]. apply Hnot. split.
    + exists (S k). cbn [length]. lia.
    + repeat constructor; congruence.
Qed.

Lemma decode_hex_of_raise (x : str) (e : exc_class) :
  rbind (fromhex x) utf8_decode = Raise e -> decode_hex x = Ok x.
Proof.
  unfold decode_hex. intros H.
  assert (He : issubclass e ValueError = true).
  { destruct (fromhex x) as [b|e'] eqn:E; cbn in H.
    - apply utf8_decode_raises in H as ->. reflexivity.
    - injection H as <-. apply fromhex_raises_ValueError in E as ->.
      reflexivity. }
  rewrite H. unfold try_except. now rewrite He.
Qed.

(** C4, as stated, fails on a string with a space between two digit
    pairs: it is not a hex string, yet [bytes.fromhex] reads it and the
    label is decoded. *)
Lemma decode_hex_reads_spaced_pairs :
  ~ is_hex_string (py "68 65") /\
  decode_hex (py "68 65") = Ok (py "he") /\
  decode_hex (py "68 65") <> Ok (py "68 65").
Proof.
  split; [|split; [vm_compute; reflexivity|vm_compute; discriminate]].
  intros [[k Hk] _]. cbn in Hk. lia.
Qed.

(** C4, amended: decoding the hex form of the UTF-8 encoding of any text
    gives the text back; and an input without ASCII whitespace that is not
    a valid hex string comes back unchanged. *)
Theorem decode_hex_roundtrip :
  (forall t, Forall is_scalar t -> decode_hex (hex (utf8_encode t)) = Ok t) /\
  (forall x, no_space x -> ~ is_hex_string x -> decode_hex x = Ok x).
Proof.
  split.
  - intros t Ht. unfold decode_hex.
    rewrite fromhex_hex by now apply utf8_encode_bytes.
    cbn [rbind]. now rewrite utf8_decode_encode.
  - intros x Hsp Hnot. apply (decode_hex_of_raise x ValueError).
    now rewrite fromhex_rejects.
Qed.

Lemma decode_hex_roundtrip_witness :
  decode_hex (hex (utf8_encode [104; 233; 8364; 128512])) =
    Ok [104; 233; 8364; 128512] /\
  decode_hex (py "6g") = Ok (py "6g").
Proof.
  destruct decode_hex_roundtrip as [H1 H2]. split.
  - apply H1. repeat constructor; unfold is_scalar; lia.
  - apply H2.
    + repeat constructor.
    + intros [_ Hall]. apply Forall_cons in Hall as [_ Hall].
      apply Forall_cons in Hall as [Hg _]. now apply Hg.
Defined.

(** C8: a label whose hex decoding fails, in [bytes.fromhex] or in the
    UTF-8 decoding of its bytes, comes back unchanged, and [decode_hex]
    raises nothing on any label. *)
Theorem decode_hex_fallback (label : str) :
  (exists s, decode_hex label = Ok s) /\
  ((exists e, fromhex label = Raise e) \/
   (exists b e, fromhex label = Ok b /\ utf8_decode b = Raise e) ->
   decode_hex label = Ok label).
Proof.
  split.
  - destruct (rbind (fromhex label) utf8_decode) as [s|e] eqn:E.
    + exists s. unfold decode_hex. now rewrite E.
    + exists label. now apply (decode_hex_of_raise label e).
  - intros [[e He] | (b & e & Hb & He)].
    + apply (decode_hex_of_raise label e). now rewrite He.
    + apply (decode_hex_of_raise label e). now rewrite Hb.
Qed.

Lemma decode_hex_fallback_witness :
  decode_hex (py "686") = Ok (py "686") /\
  decode_hex (py "zz") = Ok (py "zz") /\
  decode_hex (py "ff") = Ok (py "ff").
Proof.
  split; [|split].
  - apply (decode_hex_fallback (py "686")). left.
    exists ValueError. reflexivity.
  - apply (decode_hex_fallback (py "zz")). left.
    exists ValueError. reflexivity.
  - apply (decode_hex_fallback (py "ff")). right.
    exists [255], UnicodeDecodeError. split; reflexivity.
Defined.

(** ** The heap monad *)

Lemma bind_ok {A B} (m : M A) (k : A -> M B) (h h1 : heap) (a : A)
    (ev1 : list event) :
  m h = (Ok a, h1, ev1) ->
  bind m k h = (let '(r, h2, ev2) := k a h1 in (r, h2, ev1 ++ ev2)).
Proof. intros H. unfold bind. rewrite H. now destruct (k a h1) as [[r h2] ev2]. Qed.

Lemma bind_raise {A B} (m : M A) (k : A -> M B) (h h1 : heap)
    (e : exc_class) (ev1 : list event) :
  m h = (Raise e, h1, ev1) -> bind m k h = (Raise e, h1, ev1).
Proof. intros H. unfold bind. now rewrite H. Qed.

Lemma deref_ok (l : loc) (q : DNSQuestion) (h : heap) :
  h !! l = Some q -> deref l h = (Ok q, h, []).
Proof. intros H. unfold deref. now rewrite H. Qed.

Lemma mmap_alloc (qs : list DNSQuestion) (h : heap) :
  mmap alloc qs h = (Ok (seq (length h) (length qs)), h ++ qs, []).
Proof.
  revert h. induction qs as [|q qs IH]; intros h; cbn [mmap length seq].
  - unfold ret. now rewrite app_nil_r.
  - rewrite (bind_ok _ _ h (h ++ [q]) (length h) []) by reflexivity.
    rewrite (bind_ok _ _ _ _ _ _ (IH (h ++ [q]))).
    unfold ret. cbn. rewrite length_app, <- app_assoc. cbn.
    now replace (length h + 1)%nat with (S (length h)) by lia.
Qed.

Lemma mmap_deref (ls : list loc) (qs : list DNSQuestion) (h : heap) :
  Forall2 (fun l q => h !! l = Some q) ls qs ->
  mmap deref ls h = (Ok qs, h, []).
Proof.
  induction 1 as [|l q ls qs Hl _ IH]; cbn [mmap]; [reflexivity|].
  rewrite (bind_ok _ _ _ _ _ _ (deref_ok l q h Hl)).
  now rewrite (bind_ok _ _ _ _ _ _ IH).
Qed.

Lemma mmap_copy (ls : list loc) (qs : list DNSQuestion) (h : heap) :
  Forall2 (fun l q => h !! l = Some q) ls qs ->
  mmap (fun l => q <- deref l ;; alloc q) ls h =
    (Ok (seq (length h) (length qs)), h ++ qs, []).
Proof.
  revert ls h.
  induction qs as [|q qs IH]; intros ls h H.
  - apply Forall2_nil_inv_r in H as ->. cbn. unfold ret.
    now rewrite app_nil_r.
  - apply Forall2_cons_inv_r in H as (l & ls' & Hl & Hls & ->).
    cbn [mmap length seq].
    rewrite (bind_ok _ _ h (h ++ [q]) (length h) []).
    2:{ now rewrite (bind_ok _ _ _ _ _ _ (deref_ok l q h Hl)). }
    assert (Hls' : Forall2 (fun l q0 => (h ++ [q]) !! l = Some q0) ls' qs).
    { eapply Forall2_impl; [exact Hls|]. cbn. intros l' q' Hq.
      now apply lookup_app_l_Some. }
    rewrite (bind_ok _ _ _ _ _ _ (IH ls' (h ++ [q]) Hls')).
    unfold ret. cbn. rewrite length_app, <- app_assoc. cbn.
    now replace (length h + 1)%nat with (S (length h)) by lia.
Qed.

Lemma lookup_seq_block (h : heap) (qs t : list DNSQuestion) :
  Forall2 (fun l q => (h ++ qs ++ t) !! l = Some q /\
                      (l < length h + length qs)%nat)
    (seq (length h) (length qs)) qs.
Proof.
  revert h. induction qs as [|q qs IH]; intros h; cbn [length seq].
  - constructor.
  - constructor.
    + split; [now apply list_lookup_middle|lia].
    + specialize (IH (h ++ [q])).
      rewrite length_app in IH. cbn in IH.
      replace (length h + 1)%nat with (S (length h)) in IH by lia.
      rewrite <- app_assoc in IH. cbn in IH.
      eapply Forall2_impl; [exact IH|]. cbn. intros l q' [H1 H2].
      split; [assumption|lia].
Qed.

(** * Properties of the helpers, continued *)

(** ** Splitting and joining names *)

Lemma split_nonempty (sep : Z) (s : str) : split sep s <> [].
Proof.
  destruct s as [|c s]; cbn; [discriminate|].
  destruct (c =? sep); [discriminate|].
  destruct (split sep s); discriminate.
Qed.

Lemma split_app_sep (sep : Z) (r t : str) :
  split sep (r ++ sep :: t) = split sep r ++ split sep t.
Proof.
  induction r as [|c r IH]; cbn [app split].
  - now rewrite Z.eqb_refl.
  - rewrite IH. destruct (c =? sep); [reflexivity|].
    pose proof (split_nonempty sep r) as Hne.
    destruct (split sep r) as [|w ws]; [congruence|reflexivity].
Qed.

Lemma split_no_sep (sep : Z) (w : str) :
  Forall (fun c => c <> sep) w -> split sep w = [w].
Proof.
  induction 1 as [|c w Hc _ IH]; [reflexivity|].
  cbn [split]. apply Z.eqb_neq in Hc. now rewrite Hc, IH.
Qed.

Lemma split_join (sep : Z) (ws : list str) :
  ws <> [] ->
  Forall (Forall (fun c => c <> sep)) ws ->
  split sep (join [sep] ws) = ws.
Proof.
  intros Hne Hall. revert Hne.
  induction Hall as [|w ws Hw Hws IH]; intros Hne; [now destruct Hne|].
  destruct ws as [|w' ws].
  - cbn [join]. now apply split_no_sep.
  - change (join [sep] (w :: w' :: ws)) with (w ++ sep :: join [sep] (w' :: ws)).
    rewrite split_app_sep, split_no_sep by assumption.
    now rewrite IH.
Qed.

(** Splitting a string at a separator and joining the pieces with it
    gives the string back. *)
Lemma join_split (sep : Z) (s : str) : join [sep] (split sep s) = s.
Proof.
  induction s as [|c s IH]; [reflexivity|].
  cbn [split]. pose proof (split_nonempty sep s) as Hne.
  destruct (Z.eqb_spec c sep) as [->|Hc].
  - destruct (split sep s) as [|w ws]; [congruence|].
    change (join [sep] ([] :: w :: ws)) with (sep :: join [sep] (w :: ws)).
    now rewrite IH.
  - destruct (split sep s) as [|w ws]; [congruence|].
    destruct ws as [|w' ws]; cbn [join] in *; now rewrite <- IH.
Qed.

(** ** [parse_suffix] and [remove_suffix] *)

(** X10: on a non-empty input [parse_suffix] only adds: a separator in
    front when the input does not begin with one, a separator behind when
    it does not end with one, and the input itself in between. *)
Theorem parse_suffix_only_adds (s : str) :
  s <> [] ->
  parse_suffix s =
    (if startswith s [dot] then [] else [dot]) ++ s
    ++ (if endswith s [dot] then [] else [dot]).
Proof.
  intros Hs. rewrite parse_suffix_unfold by assumption. cbv zeta.
  destruct (startswith s [dot]) eqn:Hp; cbn [app].
  - destruct (endswith s [dot]); [now rewrite app_nil_r|reflexivity].
  - assert (He : endswith (dot :: s) [dot] = endswith s [dot]).
    { destruct (endswith s [dot]) eqn:E.
      - now apply endswith_cons.
      - destruct (endswith (dot :: s) [dot]) eqn:E'; [|reflexivity].
        apply endswith_suffix in E' as [r Hr].
        destruct r as [|c r]; cbn in Hr.
        + injection Hr as Hr. congruence.
        + injection Hr as _ Hr. rewrite <- E. symmetry.
          apply endswith_suffix. now exists r. }
    rewrite He. destruct (endswith s [dot]); [now rewrite app_nil_r|reflexivity].
Qed.

Lemma parse_suffix_only_adds_witness :
  parse_suffix (py "c2.test") = [dot] ++ py "c2.test" ++ [dot].
Proof. apply (parse_suffix_only_adds (py "c2.test")). discriminate. Defined.

(** X9: a suffix normalised by [parse_suffix] is removed at a label
    boundary: when the name ends with it, the labels of the name are the
    labels of what [remove_suffix] returns followed by the labels of the
    suffix. *)
Theorem remove_suffix_whole_labels (s name : str) :
  parse_suffix s <> [] ->
  (exists r, name = r ++ parse_suffix s) ->
  split dot name =
    split dot (remove_suffix name (parse_suffix s))
    ++ tail (split dot (parse_suffix s)).
Proof.
  intros Hne [r ->].
  rewrite remove_suffix_strips by assumption.
  assert (Hs : s <> []) by (intros ->; now apply Hne).
  destruct (parse_suffix_dotted s Hs) as [Hp _].
  apply startswith_prefix in Hp as [t Ht]. rewrite Ht. cbn [app].
  rewrite split_app_sep. cbn [split]. now rewrite Z.eqb_refl.
Qed.

Lemma remove_suffix_whole_labels_witness :
  split dot (py "6869.c2.test.") =
    split dot (remove_suffix (py "6869.c2.test.") (parse_suffix (py "c2.test")))
    ++ tail (split dot (parse_suffix (py "c2.test"))).
Proof.
  apply (remove_suffix_whole_labels (py "c2.test") (py "6869.c2.test.")).
  - discriminate.
  - now exists (py "6869").
Defined.

(** ** [decode_hex] *)

Lemma utf8_encode_decode_char (b rest : bytes) (c : Z) :
  utf8_decode_char b = Some (c, rest) ->
  is_scalar c /\ utf8_encode_char c ++ rest = b.
Proof.
  unfold utf8_decode_char, is_cont, is_scalar, utf8_encode_char. intros H.
  repeat case_match; simplify_eq; (split; [lia|]); cbn [app];
    repeat (f_equal; try (Z.div_mod_to_equations; lia)).
Qed.

Lemma utf8_encode_decode_fuel (fuel : nat) (b : bytes) (t : str) :
  utf8_decode_fuel fuel b = Ok t ->
  Forall is_scalar t /\ utf8_encode t = b.
Proof.
  revert b t. induction fuel as [|fuel IH]; intros [|b0 b] t;
    cbn [utf8_decode_fuel]; try discriminate;
    try (intros [= <-]; split; [constructor|reflexivity]).
  destruct (utf8_decode_char (b0 :: b)) as [[c rest]|] eqn:E; [|discriminate].
  destruct (utf8_decode_fuel fuel rest) as [t'|] eqn:E'; cbn; [|discriminate].
  intros [= <-].
  apply utf8_encode_decode_char in E as [Hc Hb].
  apply IH in E' as [Ht Hrest].
  split; [now constructor|].
  unfold utf8_encode in *. cbn [flat_map]. now rewrite Hrest.
Qed.

Lemma decode_hex_hex_utf8 (t : str) :
  Forall is_scalar t -> decode_hex (hex (utf8_encode t)) = Ok t.
Proof.
  intros Ht. unfold decode_hex.
  rewrite fromhex_hex by now apply utf8_encode_bytes.
  cbn [rbind]. now rewrite utf8_decode_encode.
Qed.

(** X11: when a label decodes, the text it decodes to is made of
    encodable code points, and its UTF-8 bytes are the bytes the label
    spells; so writing the text back in hex gives a label with the same
    bytes. *)
Theorem decode_hex_reencode (x : str) (b : bytes) (s : str) :
  fromhex x = Ok b ->
  utf8_decode b = Ok s ->
  decode_hex x = Ok s /\
  Forall is_scalar s /\
  utf8_encode s = b /\
  fromhex (hex (utf8_encode s)) = Ok b.
Proof.
  intros Hb Hs. split.
  - unfold decode_hex. rewrite Hb. cbn [rbind]. now rewrite Hs.
  - apply utf8_encode_decode_fuel in Hs as [Hsc Henc].
    split; [assumption|]. split; [assumption|].
    rewrite fromhex_hex by now apply utf8_encode_bytes.
    now rewrite Henc.
Qed.

Lemma decode_hex_reencode_witness :
  decode_hex (py "C3 A9") = Ok [233] /\
  utf8_encode [233] = [195; 169] /\
  fromhex (hex (utf8_encode [233])) = Ok [195; 169].
Proof.
  destruct (decode_hex_reencode (py "C3 A9") [195; 169] [233])
    as (H1 & _ & H2 & H3); [reflexivity|reflexivity|].
  split; [exact H1|]. split; [exact H2|exact H3].
Defined.

Lemma hexval_ascii_lower (c : Z) : hexval (ascii_lower c) = hexval c.
Proof.
  unfold hexval, ascii_lower.
  repeat case_match; try reflexivity; try lia; f_equal; lia.
Qed.

Lemma isspace_ascii_lower (c : Z) : isspace (ascii_lower c) = isspace c.
Proof. unfold isspace, ascii_lower. case_match; lia. Qed.

Lemma fromhex_cons2 (c d : Z) (s : str) :
  fromhex (c :: d :: s) =
    if isspace c then fromhex (d :: s)
    else match hexval c, hexval d with
         | Some top, Some bot =>
             rbind (fromhex s) (fun bs => Ok (top * 16 + bot :: bs))
         | _, _ => Raise ValueError
         end.
Proof. cbn [fromhex]. now destruct (isspace c), (hexval c), (hexval d). Qed.

Lemma fromhex_ascii_lower (x : str) : fromhex (map ascii_lower x) = fromhex x.
Proof.
  induction x as [|c|c d x IH1 IH2] using str_pair_ind.
  - reflexivity.
  - cbn. now rewrite isspace_ascii_lower, hexval_ascii_lower.
  - cbn [map] in *. rewrite !fromhex_cons2.
    now rewrite isspace_ascii_lower, !hexval_ascii_lower, IH1, IH2.
Qed.

(** X12: the case of the hex digits does not matter: a label that
    decodes to a text decodes to the same text when its letters are
    lower-cased. *)
Theorem decode_hex_ignores_case (x s : str) :
  rbind (fromhex x) utf8_decode = Ok s ->
  decode_hex x = Ok s /\ decode_hex (map ascii_lower x) = Ok s.
Proof.
  intros H. unfold decode_hex. rewrite fromhex_ascii_lower, H. now split.
Qed.

Lemma decode_hex_ignores_case_witness :
  decode_hex (py "68656C6C6F") = Ok (py "hello") /\
  decode_hex (py "68656c6c6f") = Ok (py "hello").
Proof.
  apply (decode_hex_ignores_case (py "68656C6C6F") (py "hello")).
  reflexivity.
Defined.


(** * Properties of the logger and the handler *)

(** ** Names as the DNS library stores them *)

Lemma join_app (sep : str) (a b : list str) :
  a <> [] -> b <> [] ->
  join sep (a ++ b) = join sep a ++ sep ++ join sep b.
Proof.
  intros Ha Hb. induction a as [|x a IH]; [now destruct Ha|].
  destruct a as [|x' a].
  - destruct b as [|y b]; [now destruct Hb|]. reflexivity.
  - change (join sep ((x :: x' :: a) ++ b))
      with (x ++ sep ++ join sep ((x' :: a) ++ b)).
    rewrite IH by discriminate.
    change (join sep (x :: x' :: a)) with (x ++ sep ++ join sep (x' :: a)).
    now rewrite <- !app_assoc.
Qed.

Lemma decode_hex_value_nil : decode_hex_value [] = [].
Proof. reflexivity. Qed.

(** A string with two separators in a row has an empty label before its
    last one, and the library refuses it. *)
Lemma DNSLabel_text_double_dot (other : str -> result str) (a b : str) :
  DNSLabel_text other (a ++ dot :: dot :: b) = Raise UnicodeError.
Proof.
  unfold DNSLabel_text.
  assert (Ht : truthy (a ++ dot :: dot :: b) = true) by now destruct a.
  rewrite Ht. cbn [negb orb].
  case_bool_decide as Hd.
  { apply (f_equal length) in Hd. rewrite length_app in Hd. cbn in Hd. lia. }
  cbv zeta.
  rewrite split_app_sep. cbn [split]. rewrite Z.eqb_refl.
  pose proof (split_nonempty dot b) as Hb.
  rewrite removelast_app by discriminate.
  destruct (split dot b) as [|w ws] eqn:E; [congruence|].
  cbn [removelast]. rewrite existsb_app. cbn. now rewrite orb_true_r.
Qed.

Lemma plain_label_chars (w : str) :
  plain_label w = true ->
  forallb is_ldh w = true /\ (0 < length w < 64)%nat.
Proof.
  unfold plain_label. intros H.
  apply andb_prop in H as [H H64]. apply andb_prop in H as [Hc H0].
  split; [assumption|lia].
Qed.

Lemma is_ldh_not_dot (c : Z) : is_ldh c = true -> c <> dot.
Proof. unfold is_ldh, dot. lia. Qed.

Lemma plain_labels_no_dot (ws : list str) :
  Forall (fun w => plain_label w = true) ws ->
  Forall (Forall (fun c => c <> dot)) ws.
Proof.
  intros H. eapply Forall_impl; [exact H|]. cbn. intros w Hw.
  apply plain_label_chars in Hw as [Hc _].
  apply Forall_forall. intros c Hin.
  apply is_ldh_not_dot. rewrite forallb_forall in Hc. apply Hc.
  now apply list_elem_of_In.
Qed.

Lemma plain_name_join (ws : list str) :
  Forall (fun w => plain_label w = true) ws ->
  plain_name (join [dot] ws) = true.
Proof.
  unfold plain_name.
  induction 1 as [|w ws Hw Hws IH]; [reflexivity|].
  apply plain_label_chars in Hw as [Hc _].
  assert (Hw' : forallb (fun c => is_ldh c || (c =? dot)) w = true).
  { rewrite forallb_forall in *. intros c Hin. now rewrite Hc. }
  destruct ws as [|w' ws]; [exact Hw'|].
  change (join [dot] (w :: w' :: ws)) with (w ++ dot :: join [dot] (w' :: ws)).
  rewrite forallb_app, Hw'. cbn [forallb andb].
  rewrite IH. now rewrite Z.eqb_refl, orb_true_r.
Qed.

(** A name made of plain labels and ended by the separator is stored as
    it is. *)
Lemma DNSLabel_text_plain (other : str -> result str) (ws : list str) :
  ws <> [] ->
  Forall (fun w => plain_label w = true) ws ->
  DNSLabel_text other (join [dot] ws ++ [dot]) = Ok (join [dot] ws ++ [dot]).
Proof.
  intros Hne Hws. unfold DNSLabel_text.
  assert (Hj : join [dot] ws <> []).
  { destruct ws as [|w ws]; [congruence|].
    apply Forall_cons in Hws as [Hw _].
    apply plain_label_chars in Hw as [_ Hlen].
    destruct w; [cbn in Hlen; lia|]. destruct ws; discriminate. }
  assert (Ht : truthy (join [dot] ws ++ [dot]) = true)
    by now destruct (join [dot] ws).
  rewrite Ht. cbn [negb orb].
  case_bool_decide as Hd.
  { destruct (join [dot] ws) as [|c j]; [congruence|].
    injection Hd as _ Hd. now destruct j. }
  cbv zeta.
  rewrite split_app_sep, split_join
    by (assumption || now apply plain_labels_no_dot).
  cbn [split]. rewrite removelast_app by discriminate. cbn [removelast].
  rewrite app_nil_r.
  assert (He : existsb (fun w => negb (truthy w)) ws = false).
  { apply not_true_is_false. intros H. apply existsb_exists in H as (w & Hin & Hw).
    rewrite Forall_forall in Hws.
    apply list_elem_of_In, Hws, plain_label_chars in Hin as [_ Hlen].
    destruct w; [cbn in Hlen; lia|discriminate]. }
  rewrite He.
  assert (Hp : plain_name (join [dot] ws ++ [dot]) = true).
  { unfold plain_name. rewrite forallb_app.
    fold (plain_name (join [dot] ws)). rewrite plain_name_join by assumption.
    reflexivity. }
  rewrite Hp.
  assert (Hl : forallb (fun w => Z.of_nat (length w) <? 64) (ws ++ [[]]) = true).
  { rewrite forallb_app. cbn. rewrite andb_true_r.
    apply forallb_forall. intros w Hin.
    rewrite Forall_forall in Hws.
    apply list_elem_of_In, Hws, plain_label_chars in Hin as [_ Hlen]. lia. }
  rewrite Hl. now rewrite endswith_snoc.
Qed.

(** ** [parse_question] *)

Lemma decode_hex_value_ok (label : str) :
  decode_hex label = Ok (decode_hex_value label).
Proof.
  unfold decode_hex_value.
  destruct (decode_hex label) as [s|e] eqn:E; [reflexivity|].
  unfold decode_hex in E.
  destruct (rbind (fromhex label) utf8_decode) as [s|e'] eqn:E'.
  - discriminate E.
  - pose proof (decode_hex_of_raise label e' E') as H.
    unfold decode_hex in H. rewrite E' in H. congruence.
Qed.

Lemma rmap_decode_hex (labels : list str) :
  rmap decode_hex labels = Ok (map decode_hex_value labels).
Proof.
  induction labels as [|l labels IH]; [reflexivity|].
  cbn [rmap map]. now rewrite decode_hex_value_ok, IH.
Qed.

Lemma render_plain (other : str -> result str) (self : DNSLogger)
    (q : DNSQuestion) :
  hex_encoded self = false -> render other self q = Ok q.
Proof. intros H. unfold render. now rewrite H. Qed.

(** [parse_question] on a live question: the question is renamed as
    [render] says, or the exception of [set_qname] comes out and the heap
    is as before. *)
Lemma parse_question_run (other : str -> result str) (self : DNSLogger)
    (l : loc) (q : DNSQuestion) (h : heap) :
  h !! l = Some q ->
  parse_question other self l h =
    match render other self q with
    | Ok q' => (Ok l, <[l := q']> h, [])
    | Raise e => (Raise e, h, [])
    end.
Proof.
  intros Hl. unfold parse_question, render.
  destruct (hex_encoded self) eqn:Hx; cbn [negb].
  - unfold get_qname.
    rewrite (bind_ok _ _ h h (qname q) []).
    2:{ now rewrite (bind_ok _ _ _ _ _ _ (deref_ok l q h Hl)). }
    rewrite (bind_ok _ _ h h
               (map decode_hex_value
                  (split dot (remove_suffix (qname q) (suffix self)))) []).
    2:{ unfold lift. now rewrite rmap_decode_hex. }
    fold (render_text self (qname q)).
    destruct (DNSLabel_text other (render_text self (qname q)))
      as [name'|e] eqn:E; cbn [rbind].
    + rewrite (bind_ok _ _ h
                 (<[l := mkQuestion name' (qtype q) (qclass q)]> h) tt []).
      2:{ unfold set_qname. now rewrite Hl, E. }
      reflexivity.
    + rewrite (bind_raise _ _ h h e []); [reflexivity|].
      unfold set_qname. now rewrite Hl, E.
  - unfold ret. rewrite list_insert_id; [reflexivity|]. assumption.
Qed.

(** The string built for a name outside the suffix: the name ends with
    the separator, the suffix begins with it, and nothing was removed in
    between. *)
Lemma render_text_outside (self : DNSLogger) (name : str) :
  startswith (suffix self) [dot] = true ->
  endswith name [dot] = true ->
  ~ (exists r, name = r ++ suffix self) ->
  exists a b, render_text self name = a ++ dot :: dot :: b.
Proof.
  intros Hp He Hno. unfold render_text.
  rewrite remove_suffix_keeps by now right.
  apply startswith_prefix in Hp as [t Ht].
  apply endswith_suffix in He as [n ->].
  rewrite split_app_sep, map_app. cbn [split map].
  rewrite decode_hex_value_nil.
  rewrite join_app; [|
    intros H; apply map_eq_nil in H; now apply (split_nonempty dot n)|
    discriminate].
  exists (join [dot] (map decode_hex_value (split dot n))), t.
  rewrite Ht. cbn [join app]. now rewrite <- app_assoc.
Qed.

(** C1: with hex decoding on and the suffix given as c2.test, a question
    named 68656c6c6f.c2.test. is renamed hello.c2.test. *)
Theorem parse_question_c2_test (DNSLabel_other : str -> result str)
    (h : heap) (question : loc) (q : DNSQuestion) :
  h !! question = Some q ->
  qname q = py "68656c6c6f.c2.test." ->
  parse_question DNSLabel_other (DNSLogger_init (py "c2.test") true)
    question h =
    (Ok question,
     <[question := mkQuestion (py "hello.c2.test.") (qtype q) (qclass q)]> h,
     []).
Proof.
  intros Hl Hn. rewrite (parse_question_run _ _ _ q) by assumption.
  unfold render. cbn [hex_encoded DNSLogger_init]. now rewrite Hn.
Qed.

Lemma parse_question_c2_test_witness :
  parse_question sample_DNSLabel_other (DNSLogger_init (py "c2.test") true)
    0%nat [mkQuestion (py "68656c6c6f.c2.test.") 1 1] =
    (Ok 0%nat, [mkQuestion (py "hello.c2.test.") 1 1], []).
Proof.
  apply (parse_question_c2_test sample_DNSLabel_other
           [mkQuestion (py "68656c6c6f.c2.test.") 1 1]
           0%nat (mkQuestion (py "68656c6c6f.c2.test.") 1 1));
    reflexivity.
Defined.

(** C10: with hex decoding on and a logger built with a non-empty suffix,
    a name that ends with the separator but not with the suffix is not
    renamed: the suffix is appended to the decoded name all the same,
    the string then has two separators in a row, [set_qname] raises
    [UnicodeError], and the question keeps its name. *)
Theorem parse_question_outside_suffix_raises
    (DNSLabel_other : str -> result str) (s : str) (h : heap)
    (question : loc) (q : DNSQuestion) :
  s <> [] ->
  endswith (qname q) [dot] = true ->
  ~ (exists r, qname q = r ++ suffix (DNSLogger_init s true)) ->
  h !! question = Some q ->
  parse_question DNSLabel_other (DNSLogger_init s true) question h =
    (Raise UnicodeError, h, []).
Proof.
  intros Hs He Hno Hl.
  rewrite (parse_question_run _ _ _ q) by assumption.
  unfold render. cbn [hex_encoded DNSLogger_init].
  destruct (render_text_outside (DNSLogger_init s true) (qname q))
    as (a & b & ->); [|assumption|assumption|].
  - cbn [suffix DNSLogger_init]. now apply parse_suffix_dotted.
  - now rewrite DNSLabel_text_double_dot.
Qed.

Lemma parse_question_outside_suffix_raises_witness :
  parse_question sample_DNSLabel_other sample_logger 0%nat
    [mkQuestion (py "6869.example.org.") 1 1] =
    (Raise UnicodeError, [mkQuestion (py "6869.example.org.") 1 1], []).
Proof.
  apply (parse_question_outside_suffix_raises sample_DNSLabel_other
           (py "c2.test") [mkQuestion (py "6869.example.org.") 1 1] 0%nat
           (mkQuestion (py "6869.example.org.") 1 1));
    [discriminate|reflexivity| |reflexivity].
  intros [r Hr].
  change (suffix (DNSLogger_init (py "c2.test") true))
    with (py ".c2.test.") in Hr.
  apply (f_equal (fun s => endswith s (py ".c2.test."))) in Hr.
  rewrite (proj2 (endswith_suffix (r ++ py ".c2.test.") (py ".c2.test."))) in Hr
    by now exists r.
  discriminate Hr.
Defined.

(** ** The handler *)

Section ServerProperties.

Variable DNSLabel_other : str -> result str.
Variable wire_parse : bytes -> option Message.
Variable pack : Message -> bytes.
Variable resolve : Message -> result Message.
Variable question_str : DNSQuestion -> str.
Variable address_str : address -> str.

Lemma log_run (self : DNSLogger) (sender : address) (record : DNSRecord)
    (h h0 : heap) (l : loc) (q : DNSQuestion) :
  get_q record h = (Ok l, h0, []) ->
  h0 !! l = Some q ->
  log DNSLabel_other question_str address_str self sender record h =
    match render DNSLabel_other self q with
    | Ok q' =>
        (Ok tt, <[l := q']> h0,
         [EPrint (address_str sender ++ py ": " ++ question_str q')])
    | Raise e => (Raise e, h0, [])
    end.
Proof.
  intros Hq Hl. unfold log.
  pose proof (parse_question_run DNSLabel_other self l q h0 Hl) as Hrun.
  destruct (render DNSLabel_other self q) as [q'|e].
  - rewrite (bind_ok _ _ h (<[l := q']> h0) l []).
    2:{ rewrite (bind_ok _ _ _ _ _ _ Hq). now rewrite Hrun. }
    assert (Hl' : <[l := q']> h0 !! l = Some q').
    { apply list_lookup_insert_eq. now apply lookup_lt_Some in Hl. }
    now rewrite (bind_ok _ _ _ _ _ _ (deref_ok _ _ _ Hl')).
  - rewrite (bind_raise _ _ h h0 e []); [reflexivity|].
    rewrite (bind_ok _ _ _ _ _ _ Hq). now rewrite Hrun.
Qed.

(** The request record and the heap right after [DNSRecord.parse]. *)
Lemma DNSRecord_parse_run (data : bytes) (m : Message) (h : heap) :
  wire_parse data = Some m ->
  DNSRecord_parse wire_parse data h =
    (Ok (mkRecord (msg_header m)
           (seq (length h) (length (msg_questions m))) (msg_rest m)),
     h ++ msg_questions m, []).
Proof.
  intros Hm. unfold DNSRecord_parse. rewrite Hm.
  now rewrite (bind_ok _ _ _ _ _ _ (mmap_alloc (msg_questions m) h)).
Qed.

Lemma DNSRecord_parse_fails (data : bytes) (h : heap) :
  wire_parse data = None ->
  DNSRecord_parse wire_parse data h = (Raise DNSError, h, []).
Proof. intros Hm. unfold DNSRecord_parse. now rewrite Hm. Qed.

(** The copy's first question: where it is and what it holds, for a copy
    laid out after the original's questions. *)
Lemma get_q_copy (hd rs : bytes) (h : heap) (qs : list DNSQuestion) :
  exists l t,
    get_q (mkRecord hd (seq (length (h ++ qs)) (length qs)) rs)
      ((h ++ qs) ++ qs) = (Ok l, h ++ qs ++ t, []) /\
    (h ++ qs ++ t) !! l =
      Some (match qs with q :: _ => q | [] => default_question end) /\
    (length h + length qs <= l)%nat.
Proof.
  destruct qs as [|q qs].
  - exists (length h), [default_question]. cbn. rewrite !app_nil_r.
    split; [reflexivity|]. split; [|lia].
    now apply list_lookup_middle.
  - exists (length (h ++ q :: qs)), (q :: qs). cbn [get_q questions length seq].
    split; [unfold ret; now rewrite <- app_assoc|].
    split; [|rewrite length_app; cbn; lia].
    rewrite app_assoc. now apply list_lookup_middle.
Qed.

(** What the handler does with a datagram that parses.  The heap grows by
    the parsed questions and by the objects made for the log line; the
    renamed question, if the renaming goes through, is one of the latter.
    When it does not, the exception of [set_qname] comes out before
    anything is printed, resolved or sent. *)
Lemma handle_run_explicit (logger : DNSLogger) (data : bytes)
    (sender : address) (m : Message) (h : heap) :
  wire_parse data = Some m ->
  exists l t,
    (length h + length (msg_questions m) <= l)%nat /\
    handle DNSLabel_other wire_parse pack resolve question_str address_str
      logger data sender h =
    match render DNSLabel_other logger (first_question m) with
    | Ok q' =>
        (match resolve m with Ok _ => Ok tt | Raise e => Raise e end,
         <[l := q']> (h ++ msg_questions m ++ t),
         [EPrint (address_str sender ++ py ": " ++ question_str q');
          EResolve m]
         ++ match resolve m with
            | Ok response => [ESendTo (pack response) sender]
            | Raise _ => []
            end)
    | Raise e => (Raise e, h ++ msg_questions m ++ t, [])
    end.
Proof.
  intros Hm. destruct m as [hd qs rs]. unfold first_question.
  cbn [msg_questions].
  destruct (get_q_copy hd rs h qs) as (l & t & Hq & Hl & Hge).
  set (fq := match qs with q :: _ => q | [] => default_question end) in *.
  exists l, t. split; [exact Hge|]. unfold handle.
  rewrite (bind_ok _ _ _ _ _ _ (DNSRecord_parse_run data _ h Hm)).
  cbn [msg_header msg_questions msg_rest].
  assert (Horig : Forall2 (fun i q => (h ++ qs) !! i = Some q)
                    (seq (length h) (length qs)) qs).
  { pose proof (lookup_seq_block h qs []) as H. rewrite app_nil_r in H.
    eapply Forall2_impl; [exact H|]. cbn. tauto. }
  assert (Hcopy : deepcopy (mkRecord hd (seq (length h) (length qs)) rs)
                    (h ++ qs) =
                  (Ok (mkRecord hd (seq (length (h ++ qs)) (length qs)) rs),
                   (h ++ qs) ++ qs, [])).
  { unfold deepcopy. cbn [questions header rest].
    now rewrite (bind_ok _ _ _ _ _ _ (mmap_copy _ qs (h ++ qs) Horig)). }
  rewrite (bind_ok _ _ _ _ _ _ Hcopy).
  pose proof (log_run logger sender _ _ _ _ _ Hq Hl) as Hlog.
  destruct (render DNSLabel_other logger fq) as [q'|e].
  2:{ now rewrite (bind_raise _ _ _ _ _ _ Hlog). }
  rewrite (bind_ok _ _ _ _ _ _ Hlog).
  set (h3 := <[l := q']> (h ++ qs ++ t)).
  assert (Hkept : Forall2 (fun i q => h3 !! i = Some q)
                    (seq (length h) (length qs)) qs).
  { eapply Forall2_impl; [exact (lookup_seq_block h qs t)|].
    cbn. intros i q [Hi Hlt]. subst h3.
    rewrite list_lookup_insert_ne by lia. assumption. }
  assert (Hread : read_record (mkRecord hd (seq (length h) (length qs)) rs) h3
                  = (Ok (mkMessage hd qs rs), h3, [])).
  { unfold read_record. cbn [questions header rest].
    now rewrite (bind_ok _ _ _ _ _ _ (mmap_deref _ qs h3 Hkept)). }
  unfold call_resolve.
  destruct (resolve (mkMessage hd qs rs)) as [response|e] eqn:Hres.
  - rewrite (bind_ok _ _ h3 h3 response [EResolve (mkMessage hd qs rs)]).
    2:{ rewrite (bind_ok _ _ _ _ _ _ Hread).
        rewrite (bind_ok _ _ h3 h3 tt [EResolve (mkMessage hd qs rs)])
          by reflexivity.
        unfold lift. now rewrite Hres. }
    reflexivity.
  - rewrite (bind_raise _ _ h3 h3 e [EResolve (mkMessage hd qs rs)]).
    2:{ rewrite (bind_ok _ _ _ _ _ _ Hread).
        rewrite (bind_ok _ _ h3 h3 tt [EResolve (mkMessage hd qs rs)])
          by reflexivity.
        unfold lift. now rewrite Hres. }
    reflexivity.
Qed.

(** The heap a handler leaves: what was there is there, and the parsed
    questions sit right behind it, as parsed. *)
Lemma handle_heap (logger : DNSLogger) (data : bytes) (sender : address)
    (m : Message) (h : heap) :
  wire_parse data = Some m ->
  (forall i q, h !! i = Some q ->
     (handle DNSLabel_other wire_parse pack resolve question_str address_str
        logger data sender h).1.2 !! i = Some q) /\
  Forall2
    (fun i q =>
       (handle DNSLabel_other wire_parse pack resolve question_str
          address_str logger data sender h).1.2 !! i = Some q)
    (seq (length h) (length (msg_questions m))) (msg_questions m).
Proof.
  intros Hm.
  destruct (handle_run_explicit logger data sender m h Hm)
    as (l & t & Hge & ->).
  assert (Hold : forall i q, h !! i = Some q ->
                   (h ++ msg_questions m ++ t) !! i = Some q)
    by (intros i q Hi; now apply lookup_app_l_Some).
  pose proof (lookup_seq_block h (msg_questions m) t) as Hnew.
  destruct (render DNSLabel_other logger (first_question m)) as [q'|e];
    cbn [fst snd]; split.
  - intros i q Hi. apply lookup_lt_Some in Hi as Hlt.
    rewrite list_lookup_insert_ne by lia. now apply Hold.
  - eapply Forall2_impl; [exact Hnew|]. cbn. intros i q [Hi Hlt].
    now rewrite list_lookup_insert_ne by lia.
  - exact Hold.
  - eapply Forall2_impl; [exact Hnew|]. cbn. tauto.
Qed.

Lemma handle_malformed (logger : DNSLogger) (data : bytes) (sender : address)
    (h : heap) :
  wire_parse data = None ->
  handle DNSLabel_other wire_parse pack resolve question_str address_str
    logger data sender h = (Raise DNSError, h, []).
Proof.
  intros Hm. unfold handle.
  now rewrite (bind_raise _ _ _ _ _ _ (DNSRecord_parse_fails data h Hm)).
Qed.

Lemma process_request_thread_malformed (logger : DNSLogger) (data : bytes)
    (sender : address) (h : heap) :
  wire_parse data = None ->
  process_request_thread DNSLabel_other wire_parse pack resolve question_str
    address_str logger data sender h = (Ok tt, h, [EStderr DNSError]).
Proof.
  intros Hm. unfold process_request_thread, try_exceptM.
  now rewrite handle_malformed.
Qed.

Lemma serve_forever_app (logger : DNSLogger)
    (earlier later : list (bytes * address)) (h : heap) :
  serve_forever DNSLabel_other wire_parse pack resolve question_str
    address_str logger (earlier ++ later) h =
  (let '(h1, ev1) :=
     serve_forever DNSLabel_other wire_parse pack resolve question_str
       address_str logger earlier h in
   let '(h2, ev2) :=
     serve_forever DNSLabel_other wire_parse pack resolve question_str
       address_str logger later h1 in
   (h2, ev1 ++ ev2)).
Proof.
  revert h. induction earlier as [|[d a] earlier IH]; intros h;
    cbn [app serve_forever].
  - now destruct (serve_forever _ _ _ _ _ _ logger later h).
  - destruct (process_request_thread _ _ _ _ _ _ logger d a h)
      as [[r h1] ev1].
    rewrite IH.
    destruct (serve_forever _ _ _ _ _ _ logger earlier h1) as [h2 ev2].
    destruct (serve_forever _ _ _ _ _ _ logger later h2) as [h3 ev3].
    now rewrite app_assoc.
Qed.

Lemma replies_app (e1 e2 : list event) :
  replies (e1 ++ e2) = replies e1 ++ replies e2.
Proof. apply flat_map_app. Qed.

Lemma printed_app (e1 e2 : list event) :
  printed (e1 ++ e2) = printed e1 ++ printed e2.
Proof. apply flat_map_app. Qed.

Lemma resolved_app (e1 e2 : list event) :
  resolved (e1 ++ e2) = resolved e1 ++ resolved e2.
Proof. apply flat_map_app. Qed.

(** A well-formed datagram whose question is rendered and whose request
    the resolver answers gets its reply, wherever it stands in the
    stream. *)
Lemma serve_forever_replies (logger : DNSLogger)
    (incoming : list (bytes * address)) (h : heap)
    (data : bytes) (sender : address) (m response : Message)
    (q' : DNSQuestion) :
  In (data, sender) incoming ->
  wire_parse data = Some m ->
  render DNSLabel_other logger (first_question m) = Ok q' ->
  resolve m = Ok response ->
  In (pack response, sender)
    (replies (serve_forever DNSLabel_other wire_parse pack resolve
                question_str address_str logger incoming h).2).
Proof.
  intros Hin Hm Hq Hr. revert h.
  induction incoming as [|[d a] incoming IH]; intros h; [destruct Hin|].
  cbn [serve_forever].
  destruct (process_request_thread _ _ _ _ _ _ logger d a h)
    as [[r h1] ev1] eqn:Ep.
  specialize (fun H => IH H h1).
  destruct (serve_forever _ _ _ _ _ _ logger incoming h1) as [h2 ev2].
  cbn [snd] in *. rewrite replies_app. apply in_or_app.
  destruct Hin as [[= -> ->]|Hin]; [left|right; now apply IH].
  unfold process_request_thread, try_exceptM in Ep.
  destruct (handle_run_explicit logger data sender m h Hm)
    as (l & t & _ & Hrun).
  rewrite Hrun, Hq, Hr in Ep. injection Ep as <- <- <-.
  cbn. now left.
Qed.

(** C2: for every datagram that parses, every call of the resolver gets a
    request equal to the message parsed from the wire; the resolver is
    called as soon as the log line is out; and the question objects of
    the request still hold the parsed questions when the handler is
    done, whether the renaming for the log line went through or raised:
    it touches only the copy. *)
Theorem handle_keeps_request (logger : DNSLogger) (data : bytes)
    (sender : address) (m : Message) (h : heap) :
  wire_parse data = Some m ->
  (forall m',
     In m' (resolved (handle DNSLabel_other wire_parse pack resolve
                        question_str address_str logger data sender h).2) ->
     m' = m) /\
  (printed (handle DNSLabel_other wire_parse pack resolve question_str
              address_str logger data sender h).2 <> [] ->
   resolved (handle DNSLabel_other wire_parse pack resolve question_str
               address_str logger data sender h).2 = [m]) /\
  Forall2
    (fun l q =>
       (handle DNSLabel_other wire_parse pack resolve question_str
          address_str logger data sender h).1.2 !! l = Some q)
    (seq (length h) (length (msg_questions m))) (msg_questions m).
Proof.
  intros Hm.
  split; [|split; [|now apply handle_heap]];
    destruct (handle_run_explicit logger data sender m h Hm)
      as (l & t & _ & ->);
    destruct (render DNSLabel_other logger (first_question m)) as [q'|e];
    cbn [snd]; try rewrite resolved_app; cbn.
  - intros m' Hin. destruct (resolve m); cbn in Hin; intuition congruence.
  - intros m' [].
  - intros _. now destruct (resolve m).
  - intros H. now destruct H.
Qed.



(** C3: a datagram that does not parse gets no reply; its failure ends in
    its own thread, the heap is as before, and the replies and log lines
    of all other datagrams are what they would be without it; every later
    well-formed datagram whose question is rendered and whose request the
    resolver answers is replied to. *)
Theorem malformed_datagram_contained (logger : DNSLogger) (data : bytes)
    (sender : address) (h : heap) :
  wire_parse data = None ->
  (process_request_thread DNSLabel_other wire_parse pack resolve
     question_str address_str logger data sender h =
     (Ok tt, h, [EStderr DNSError]) /\
   replies (process_request_thread DNSLabel_other wire_parse pack resolve
              question_str address_str logger data sender h).2 = []) /\
  (forall earlier later h0,
     replies (serve_forever DNSLabel_other wire_parse pack resolve
                question_str address_str logger
                (earlier ++ (data, sender) :: later) h0).2 =
     replies (serve_forever DNSLabel_other wire_parse pack resolve
                question_str address_str logger (earlier ++ later) h0).2 /\
     printed (serve_forever DNSLabel_other wire_parse pack resolve
                question_str address_str logger
                (earlier ++ (data, sender) :: later) h0).2 =
     printed (serve_forever DNSLabel_other wire_parse pack resolve
                question_str address_str logger (earlier ++ later) h0).2) /\
  (forall earlier later h0 data' sender' m' q' response,
     In (data', sender') later ->
     wire_parse data' = Some m' ->
     render DNSLabel_other logger (first_question m') = Ok q' ->
     resolve m' = Ok response ->
     In (pack response, sender')
       (replies (serve_forever DNSLabel_other wire_parse pack resolve
                   question_str address_str logger
                   (earlier ++ (data, sender) :: later) h0).2)).
Proof.
  intros Hm. split; [|split].
  - now rewrite process_request_thread_malformed.
  - intros earlier later h0. rewrite !serve_forever_app.
    destruct (serve_forever _ _ _ _ _ _ logger earlier h0) as [h1 ev1].
    cbn [serve_forever].
    rewrite process_request_thread_malformed by assumption.
    destruct (serve_forever _ _ _ _ _ _ logger later h1) as [h2 ev2].
    cbn [snd]. rewrite !replies_app, !printed_app. now cbn.
  - intros earlier later h0 data' sender' m' q' response Hin Hm' Hq Hr.
    apply (serve_forever_replies logger _ h0 data' sender' m' response q');
      [|assumption|assumption|assumption].
    apply in_or_app. right. now right.
Qed.

End ServerProperties.

Lemma handle_keeps_request_witness :
  resolved (handle sample_DNSLabel_other sample_parse sample_pack
              sample_resolve sample_question_str sample_address_str
              sample_logger (py "68656c6c6f.c2.test.") sample_sender []).2 =
    [mkMessage [0; 1] [mkQuestion (py "68656c6c6f.c2.test.") 1 1] []].
Proof.
  destruct (handle_keeps_request sample_DNSLabel_other sample_parse
              sample_pack sample_resolve sample_question_str
              sample_address_str sample_logger (py "68656c6c6f.c2.test.")
              sample_sender
              (mkMessage [0; 1] [mkQuestion (py "68656c6c6f.c2.test.") 1 1] [])
              [] eq_refl) as (_ & H & _).
  apply H. discriminate.
Defined.

(** Without the [deepcopy] the resolver would see the renamed question. *)
Example handle_nocopy_changes_request :
  resolved (handle_nocopy sample_DNSLabel_other sample_parse sample_pack
              sample_resolve sample_question_str sample_address_str
              sample_logger (py "68656c6c6f.c2.test.") sample_sender []).2 =
    [mkMessage [0; 1] [mkQuestion (py "hello.c2.test.") 1 1] []].
Proof. vm_compute. reflexivity. Qed.


Lemma malformed_datagram_contained_witness :
  replies (serve_forever sample_DNSLabel_other sample_parse sample_pack
             sample_resolve sample_question_str sample_address_str
             sample_logger
             [([], sample_sender); (py "6869.c2.test.", sample_sender)]
             []).2 =
  replies (serve_forever sample_DNSLabel_other sample_parse sample_pack
             sample_resolve sample_question_str sample_address_str
             sample_logger [(py "6869.c2.test.", sample_sender)] []).2.
Proof.
  destruct (malformed_datagram_contained sample_DNSLabel_other sample_parse
              sample_pack sample_resolve sample_question_str
              sample_address_str sample_logger [] sample_sender []
              eq_refl) as (_ & Hsame & _).
  exact (proj1 (Hsame [] [(py "6869.c2.test.", sample_sender)] [])).
Defined.

(** * Further properties of [parse_question], the handler and the server *)

Lemma hex_no_dot (b : bytes) :
  Forall is_byte b -> Forall (fun c => c <> dot) (hex b).
Proof.
  induction 1 as [|x b Hx _ IH]; [constructor|].
  unfold hex in *. cbn [flat_map app]. unfold is_byte in Hx.
  repeat constructor; [| |exact IH];
    unfold hexdigit, dot; case_match; Z.div_mod_to_equations; lia.
Qed.

Lemma decode_hex_value_hex_utf8 (ts : list str) :
  Forall (Forall is_scalar) ts ->
  map decode_hex_value (map (fun t => hex (utf8_encode t)) ts) = ts.
Proof.
  induction 1 as [|t ts Ht _ IH]; [reflexivity|].
  cbn [map]. rewrite IH. unfold decode_hex_value.
  now rewrite decode_hex_hex_utf8.
Qed.

Lemma remove_suffix_app (r suffix : str) :
  remove_suffix (r ++ suffix) suffix = r.
Proof.
  destruct suffix as [|c suffix].
  - rewrite app_nil_r. apply remove_suffix_keeps. now left.
  - now apply remove_suffix_strips.
Qed.

Lemma plain_label_scalar (w : str) :
  plain_label w = true -> Forall is_scalar w.
Proof.
  intros H. apply plain_label_chars in H as [Hc _].
  apply Forall_forall. intros c Hin.
  rewrite forallb_forall in Hc.
  apply list_elem_of_In, Hc in Hin. unfold is_ldh in Hin. unfold is_scalar. lia.
Qed.

(** X13: in hex mode, when the name ends with the configured suffix,
    only the part before the suffix is split into labels and decoded; the
    suffix is put back as it is, never decoded, and the string so built
    is what [set_qname] is given: the question takes the name the library
    makes of it, or keeps its own when the library refuses it. *)
Theorem parse_question_keeps_suffix (DNSLabel_other : str -> result str)
    (self : DNSLogger) (h : heap) (question : loc) (q : DNSQuestion)
    (r : str) :
  hex_encoded self = true ->
  h !! question = Some q ->
  qname q = r ++ suffix self ->
  exists labels,
    rmap decode_hex (split dot r) = Ok labels /\
    parse_question DNSLabel_other self question h =
      match DNSLabel_text DNSLabel_other (join [dot] labels ++ suffix self)
      with
      | Ok name =>
          (Ok question,
           <[question := mkQuestion name (qtype q) (qclass q)]> h, [])
      | Raise e => (Raise e, h, [])
      end.
Proof.
  intros Hx Hl Hn.
  exists (map decode_hex_value (split dot r)).
  split; [apply rmap_decode_hex|].
  rewrite (parse_question_run _ _ _ q) by assumption.
  unfold render, render_text. rewrite Hx, Hn, remove_suffix_app.
  now destruct (DNSLabel_text _ _).
Qed.

Lemma parse_question_keeps_suffix_witness :
  parse_question sample_DNSLabel_other (DNSLogger_init (py "6162") true)
    0%nat [mkQuestion (py "6869.6a.6162.") 1 1] =
    (Ok 0%nat, [mkQuestion (py "hi.j.6162.") 1 1], []).
Proof.
  destruct (parse_question_keeps_suffix sample_DNSLabel_other
              (DNSLogger_init (py "6162") true)
              [mkQuestion (py "6869.6a.6162.") 1 1] 0%nat
              (mkQuestion (py "6869.6a.6162.") 1 1) (py "6869.6a"))
    as (labels & Hlabels & Hrun); [reflexivity|reflexivity|reflexivity|].
  rewrite Hrun. injection Hlabels as <-. reflexivity.
Defined.

(** X8: in hex mode, a plain name that ends with the configured suffix
    and whose labels before the suffix all fail to decode is left exactly
    as it is. *)
Theorem parse_question_undecodable (DNSLabel_other : str -> result str)
    (self : DNSLogger) (h : heap) (question : loc) (q : DNSQuestion)
    (r : str) (ws : list str) :
  hex_encoded self = true ->
  h !! question = Some q ->
  qname q = r ++ suffix self ->
  Forall (fun label => decode_hex label = Ok label) (split dot r) ->
  ws <> [] ->
  Forall (fun w => plain_label w = true) ws ->
  qname q = join [dot] ws ++ [dot] ->
  parse_question DNSLabel_other self question h = (Ok question, h, []).
Proof.
  intros Hx Hl Hn Hall Hne Hws Hplain.
  rewrite (parse_question_run _ _ _ q) by assumption.
  assert (Hmap : map decode_hex_value (split dot r) = split dot r).
  { induction Hall as [|w ws' Hw _ IH]; [reflexivity|].
    cbn [map]. rewrite IH. unfold decode_hex_value. now rewrite Hw. }
  unfold render, render_text.
  rewrite Hx, Hn, remove_suffix_app, Hmap, join_split, <- Hn, Hplain.
  rewrite DNSLabel_text_plain by assumption. cbn [rbind].
  rewrite <- Hplain.
  rewrite list_insert_id; [reflexivity|]. rewrite Hl. now destruct q.
Qed.

Lemma parse_question_undecodable_witness :
  parse_question sample_DNSLabel_other sample_logger 0%nat
    [mkQuestion (py "www.mail.c2.test.") 1 1]
    = (Ok 0%nat, [mkQuestion (py "www.mail.c2.test.") 1 1], []).
Proof.
  apply (parse_question_undecodable sample_DNSLabel_other sample_logger _
           0%nat (mkQuestion (py "www.mail.c2.test.") 1 1) (py "www.mail")
           [py "www"; py "mail"; py "c2"; py "test"]);
    [reflexivity|reflexivity|reflexivity| |discriminate| |reflexivity];
    repeat constructor.
Defined.

(** X7: in hex mode, with a suffix made of plain labels, for any plain
    labels given as texts, the name made of their hex forms as labels
    followed by the suffix is renamed to the texts themselves joined by
    the separator and followed by the suffix. *)
Theorem parse_question_decodes_texts (DNSLabel_other : str -> result str)
    (self : DNSLogger) (h : heap) (question : loc) (q : DNSQuestion)
    (ts ss : list str) :
  hex_encoded self = true ->
  ts <> [] ->
  Forall (fun t => plain_label t = true) ts ->
  ss <> [] ->
  Forall (fun w => plain_label w = true) ss ->
  suffix self = dot :: join [dot] ss ++ [dot] ->
  h !! question = Some q ->
  qname q =
    join [dot] (map (fun t => hex (utf8_encode t)) ts) ++ suffix self ->
  parse_question DNSLabel_other self question h =
    (Ok question,
     <[question := mkQuestion (join [dot] ts ++ suffix self)
                     (qtype q) (qclass q)]> h,
     []).
Proof.
  intros Hx Hne Hts Hss_ne Hss Hsuf Hl Hn.
  assert (Hsc : Forall (Forall is_scalar) ts).
  { eapply Forall_impl; [exact Hts|]. cbn. apply plain_label_scalar. }
  rewrite (parse_question_run _ _ _ q) by assumption.
  unfold render, render_text. rewrite Hx, Hn, remove_suffix_app.
  rewrite split_join.
  2:{ destruct ts; [congruence|discriminate]. }
  2:{ apply Forall_fmap. eapply Forall_impl; [exact Hsc|].
      cbn. intros t Ht. apply hex_no_dot. now apply utf8_encode_bytes. }
  rewrite decode_hex_value_hex_utf8 by assumption.
  assert (Htext : join [dot] ts ++ suffix self
                  = join [dot] (ts ++ ss) ++ [dot]).
  { rewrite Hsuf, join_app by assumption. cbn [app].
    now rewrite <- app_assoc. }
  rewrite Htext, DNSLabel_text_plain.
  - reflexivity.
  - destruct ts; [congruence|discriminate].
  - now apply Forall_app.
Qed.

Lemma parse_question_decodes_texts_witness :
  parse_question sample_DNSLabel_other sample_logger 0%nat
    [mkQuestion (py "757365722d626f62.6b6579.c2.test.") 1 1] =
    (Ok 0%nat, [mkQuestion (py "user-bob.key.c2.test.") 1 1], []).
Proof.
  apply (parse_question_decodes_texts sample_DNSLabel_other sample_logger
           [mkQuestion (py "757365722d626f62.6b6579.c2.test.") 1 1] 0%nat
           (mkQuestion (py "757365722d626f62.6b6579.c2.test.") 1 1)
           [py "user-bob"; py "key"] [py "c2"; py "test"]);
    [reflexivity|discriminate| |discriminate| |reflexivity|reflexivity
    |reflexivity]; repeat constructor.
Defined.

Section ServerFurther.

Variable DNSLabel_other : str -> result str.
Variable wire_parse : bytes -> option Message.
Variable pack : Message -> bytes.
Variable resolve : Message -> result Message.
Variable question_str : DNSQuestion -> str.
Variable address_str : address -> str.

(** The thread of a datagram adds at most a traceback to what its handler
    does, and leaves the handler's heap. *)
Lemma process_request_thread_handle (logger : DNSLogger) (data : bytes)
    (sender : address) (h : heap) :
  (process_request_thread DNSLabel_other wire_parse pack resolve
     question_str address_str logger data sender h).1.2 =
  (handle DNSLabel_other wire_parse pack resolve question_str address_str
     logger data sender h).1.2 /\
  replies (process_request_thread DNSLabel_other wire_parse pack resolve
             question_str address_str logger data sender h).2 =
  replies (handle DNSLabel_other wire_parse pack resolve question_str
             address_str logger data sender h).2 /\
  printed (process_request_thread DNSLabel_other wire_parse pack resolve
             question_str address_str logger data sender h).2 =
  printed (handle DNSLabel_other wire_parse pack resolve question_str
             address_str logger data sender h).2.
Proof.
  unfold process_request_thread, try_exceptM.
  destruct (handle _ _ _ _ _ _ logger data sender h) as [[[u|e] h1] ev1];
    [now repeat split|].
  destruct (issubclass e Exception); [|now repeat split].
  cbn. rewrite replies_app, printed_app. cbn. now rewrite !app_nil_r.
Qed.

(** X1: for a datagram that parses, whose question is rendered and whose
    request the resolver answers, the handler returns normally and does
    exactly three things, in this order: it prints the log line, it calls
    the resolver with the parsed request, and it sends the packed
    response to the sender. *)
Theorem handle_trace (logger : DNSLogger) (data : bytes) (sender : address)
    (m response : Message) (q' : DNSQuestion) (h : heap) :
  wire_parse data = Some m ->
  render DNSLabel_other logger (first_question m) = Ok q' ->
  resolve m = Ok response ->
  (handle DNSLabel_other wire_parse pack resolve question_str address_str
     logger data sender h).1.1 = Ok tt /\
  (handle DNSLabel_other wire_parse pack resolve question_str address_str
     logger data sender h).2 =
    [EPrint (address_str sender ++ py ": " ++ question_str q');
     EResolve m;
     ESendTo (pack response) sender].
Proof.
  intros Hm Hq Hr.
  destruct (handle_run_explicit DNSLabel_other wire_parse pack resolve
              question_str address_str logger data sender m h Hm)
    as (l & t & _ & ->).
  rewrite Hq, Hr. now split.
Qed.

(** X2: when the question is rendered and the resolver raises an
    exception under [Exception], no reply is sent: the log line has been
    printed, the resolver has been called, and the thread ends normally
    after writing the traceback. *)
Theorem resolver_failure_contained (logger : DNSLogger) (data : bytes)
    (sender : address) (m : Message) (q' : DNSQuestion) (e : exc_class)
    (h : heap) :
  wire_parse data = Some m ->
  render DNSLabel_other logger (first_question m) = Ok q' ->
  resolve m = Raise e ->
  issubclass e Exception = true ->
  (process_request_thread DNSLabel_other wire_parse pack resolve
     question_str address_str logger data sender h).1.1 = Ok tt /\
  (process_request_thread DNSLabel_other wire_parse pack resolve
     question_str address_str logger data sender h).2 =
    [EPrint (address_str sender ++ py ": " ++ question_str q');
     EResolve m;
     EStderr e].
Proof.
  intros Hm Hq Hr He. unfold process_request_thread, try_exceptM.
  destruct (handle_run_explicit DNSLabel_other wire_parse pack resolve
              question_str address_str logger data sender m h Hm)
    as (l & t & _ & ->).
  rewrite Hq, Hr, He. now split.
Qed.

Lemma process_request_thread_outputs (logger : DNSLogger)
    (d : bytes * address) (h : heap) :
  replies (process_request_thread DNSLabel_other wire_parse pack resolve
             question_str address_str logger d.1 d.2 h).2 =
    reply_of DNSLabel_other wire_parse pack resolve logger d /\
  printed (process_request_thread DNSLabel_other wire_parse pack resolve
             question_str address_str logger d.1 d.2 h).2 =
    line_of DNSLabel_other wire_parse question_str address_str logger d.
Proof.
  destruct d as [data sender]. cbn [fst snd].
  destruct (process_request_thread_handle logger data sender h)
    as (_ & -> & ->).
  unfold reply_of, line_of. cbn [fst snd].
  destruct (wire_parse data) as [m|] eqn:Hm.
  - destruct (handle_run_explicit DNSLabel_other wire_parse pack resolve
                question_str address_str logger data sender m h Hm)
      as (l & t & _ & ->).
    destruct (render DNSLabel_other logger (first_question m)) as [q'|e];
      [|now split].
    cbn [snd]. rewrite replies_app, printed_app.
    destruct (resolve m) as [response|e]; now split.
  - now rewrite handle_malformed.
Qed.

(** X3: what the server sends and prints is decided datagram by
    datagram: whatever the order in which the handlers take effect, the
    replies are, as a collection, the packed responses to the datagrams
    that parse, whose question is rendered and whose request the resolver
    answers, each to its own sender; the log lines are those of the
    datagrams that parse and whose question is rendered. *)
Theorem serve_forever_outputs (logger : DNSLogger)
    (incoming schedule : list (bytes * address)) (h : heap) :
  Permutation incoming schedule ->
  Permutation
    (replies (serve_forever DNSLabel_other wire_parse pack resolve
                question_str address_str logger schedule h).2)
    (flat_map (reply_of DNSLabel_other wire_parse pack resolve logger)
       incoming) /\
  Permutation
    (printed (serve_forever DNSLabel_other wire_parse pack resolve
                question_str address_str logger schedule h).2)
    (flat_map (line_of DNSLabel_other wire_parse question_str address_str
                 logger) incoming).
Proof.
  intros Hperm.
  enough (H : replies (serve_forever DNSLabel_other wire_parse pack resolve
                         question_str address_str logger schedule h).2 =
              flat_map (reply_of DNSLabel_other wire_parse pack resolve
                          logger) schedule /\
              printed (serve_forever DNSLabel_other wire_parse pack resolve
                         question_str address_str logger schedule h).2 =
              flat_map (line_of DNSLabel_other wire_parse question_str
                          address_str logger) schedule).
  { destruct H as [-> ->]. split; apply Permutation_flat_map;
      now symmetry. }
  clear Hperm. revert h.
  induction schedule as [|[data sender] schedule IH]; intros h.
  - now split.
  - cbn [serve_forever flat_map].
    destruct (process_request_thread_outputs logger (data, sender) h)
      as [Hr Hp]. cbn [fst snd] in Hr, Hp.
    destruct (process_request_thread _ _ _ _ _ _ logger data sender h)
      as [[r h1] ev1].
    destruct (IH h1) as [IHr IHp].
    destruct (serve_forever _ _ _ _ _ _ logger schedule h1) as [h2 ev2].
    cbn [snd] in *. rewrite replies_app, printed_app.
    now rewrite Hr, Hp, IHr, IHp.
Qed.

Lemma process_request_thread_keeps (logger : DNSLogger) (data : bytes)
    (sender : address) (h : heap) (i : loc) (q : DNSQuestion) :
  h !! i = Some q ->
  (process_request_thread DNSLabel_other wire_parse pack resolve
     question_str address_str logger data sender h).1.2 !! i = Some q.
Proof.
  intros Hi.
  destruct (process_request_thread_handle logger data sender h) as (-> & _).
  destruct (wire_parse data) as [m|] eqn:Hm.
  - now apply (handle_heap DNSLabel_other wire_parse pack resolve
                 question_str address_str logger data sender m h Hm).
  - now rewrite handle_malformed.
Qed.

(** X5: handlers only add question objects: an object that is on the heap
    before the server handles a stream of datagrams is unchanged after
    it, so no handler touches the objects of another request. *)
Theorem serve_forever_keeps_objects (logger : DNSLogger)
    (incoming : list (bytes * address)) (h : heap) (i : loc)
    (q : DNSQuestion) :
  h !! i = Some q ->
  (serve_forever DNSLabel_other wire_parse pack resolve question_str
     address_str logger incoming h).1 !! i = Some q.
Proof.
  revert h. induction incoming as [|[data sender] incoming IH]; intros h Hi.
  - exact Hi.
  - cbn [serve_forever].
    pose proof (process_request_thread_keeps logger data sender h i q Hi)
      as Hk.
    destruct (process_request_thread _ _ _ _ _ _ logger data sender h)
      as [[r h1] ev1].
    cbn [fst snd] in Hk. specialize (IH h1 Hk).
    now destruct (serve_forever _ _ _ _ _ _ logger incoming h1) as [h2 ev2].
Qed.

(** X6: with hex decoding off, the log line carries the question as it
    was parsed, whatever suffix the logger was given. *)
Theorem handle_plain_log_line (logger : DNSLogger) (data : bytes)
    (sender : address) (m : Message) (h : heap) :
  hex_encoded logger = false ->
  wire_parse data = Some m ->
  printed (handle DNSLabel_other wire_parse pack resolve question_str
             address_str logger data sender h).2 =
    [address_str sender ++ py ": " ++ question_str (first_question m)].
Proof.
  intros Hx Hm.
  destruct (handle_run_explicit DNSLabel_other wire_parse pack resolve
              question_str address_str logger data sender m h Hm)
    as (l & t & _ & ->).
  rewrite render_plain by assumption.
  cbn [snd]. rewrite printed_app. cbn.
  now destruct (resolve m).
Qed.

(** X4: [log] works in place.  When the renaming goes through, the first
    question of the very record it was given carries the new name
    afterwards, and this is the question whose textual form was printed.
    When [set_qname] raises, [log] raises the same, prints nothing and
    leaves the heap as it was. *)
Theorem log_renames_in_place (self : DNSLogger) (sender : address)
    (record : DNSRecord) (h : heap) (l : loc) (ls : list loc)
    (q : DNSQuestion) :
  questions record = l :: ls ->
  h !! l = Some q ->
  (forall q',
     render DNSLabel_other self q = Ok q' ->
     log DNSLabel_other question_str address_str self sender record h =
       (Ok tt, <[l := q']> h,
        [EPrint (address_str sender ++ py ": " ++ question_str q')]) /\
     (log DNSLabel_other question_str address_str self sender record h).1.2
       !! l = Some q') /\
  (forall e,
     render DNSLabel_other self q = Raise e ->
     log DNSLabel_other question_str address_str self sender record h =
       (Raise e, h, [])).
Proof.
  intros Hq Hl.
  assert (Hget : get_q record h = (Ok l, h, [])).
  { unfold get_q. now rewrite Hq. }
  rewrite (log_run DNSLabel_other question_str address_str self sender
             record h h l q Hget Hl).
  split.
  - intros q' ->. split; [reflexivity|]. cbn [fst snd].
    apply list_lookup_insert_eq. now apply lookup_lt_Some in Hl.
  - now intros e ->.
Qed.

End ServerFurther.

Lemma handle_trace_witness :
  (handle sample_DNSLabel_other sample_parse sample_pack sample_resolve
     sample_question_str sample_address_str sample_logger
     (py "6869.c2.test.") sample_sender []).2 =
    [EPrint (py "10.0.0.7: hi.c2.test.");
     EResolve (mkMessage [0; 1] [mkQuestion (py "6869.c2.test.") 1 1] []);
     ESendTo ([0; 1] ++ py "6869.c2.test.") sample_sender].
Proof.
  apply (handle_trace sample_DNSLabel_other sample_parse sample_pack
           sample_resolve sample_question_str sample_address_str
           sample_logger (py "6869.c2.test.") sample_sender
           (mkMessage [0; 1] [mkQuestion (py "6869.c2.test.") 1 1] [])
           (mkMessage [0; 1] [mkQuestion (py "6869.c2.test.") 1 1] [])
           (mkQuestion (py "hi.c2.test.") 1 1));
    reflexivity.
Defined.

Lemma resolver_failure_contained_witness :
  (process_request_thread sample_DNSLabel_other sample_parse sample_pack
     (fun _ => Raise ValueError) sample_question_str sample_address_str
     sample_logger (py "6869.c2.test.") sample_sender []).2 =
    [EPrint (py "10.0.0.7: hi.c2.test.");
     EResolve (mkMessage [0; 1] [mkQuestion (py "6869.c2.test.") 1 1] []);
     EStderr ValueError].
Proof.
  apply (resolver_failure_contained sample_DNSLabel_other sample_parse
           sample_pack (fun _ => Raise ValueError) sample_question_str
           sample_address_str sample_logger (py "6869.c2.test.")
           sample_sender
           (mkMessage [0; 1] [mkQuestion (py "6869.c2.test.") 1 1] [])
           (mkQuestion (py "hi.c2.test.") 1 1) ValueError); reflexivity.
Defined.

Lemma serve_forever_outputs_witness :
  Permutation
    (replies (serve_forever sample_DNSLabel_other sample_parse sample_pack
                sample_resolve sample_question_str sample_address_str
                sample_logger
                [(py "6a.c2.test.", sample_sender);
                 (py "6869.example.org.", sample_sender);
                 (py "6869.c2.test.", sample_sender)] []).2)
    [([0; 1] ++ py "6869.c2.test.", sample_sender);
     ([0; 1] ++ py "6a.c2.test.", sample_sender)].
Proof.
  apply (serve_forever_outputs sample_DNSLabel_other sample_parse
           sample_pack sample_resolve sample_question_str
           sample_address_str sample_logger
           [(py "6869.c2.test.", sample_sender);
            (py "6869.example.org.", sample_sender);
            (py "6a.c2.test.", sample_sender)]).
  apply Permutation_rev.
Defined.

Lemma serve_forever_keeps_objects_witness :
  (serve_forever sample_DNSLabel_other sample_parse sample_pack
     sample_resolve sample_question_str sample_address_str sample_logger
     [(py "6869.c2.test.", sample_sender); ([], sample_sender)]
     [mkQuestion (py "6a.c2.test.") 1 1]).1 !! 0%nat =
    Some (mkQuestion (py "6a.c2.test.") 1 1).
Proof.
  apply (serve_forever_keeps_objects sample_DNSLabel_other sample_parse
           sample_pack sample_resolve sample_question_str
           sample_address_str sample_logger).
  reflexivity.
Defined.

Lemma handle_plain_log_line_witness :
  printed (handle sample_DNSLabel_other sample_parse sample_pack
             sample_resolve sample_question_str sample_address_str
             (DNSLogger_init (py "c2.test") false)
             (py "6869.c2.test.") sample_sender []).2 =
    [py "10.0.0.7: 6869.c2.test."].
Proof.
  apply (handle_plain_log_line sample_DNSLabel_other sample_parse
           sample_pack sample_resolve sample_question_str
           sample_address_str (DNSLogger_init (py "c2.test") false)
           (py "6869.c2.test.") sample_sender
           (mkMessage [0; 1] [mkQuestion (py "6869.c2.test.") 1 1] []));
    reflexivity.
Defined.

Lemma log_renames_in_place_witness :
  (log sample_DNSLabel_other sample_question_str sample_address_str
     sample_logger sample_sender (mkRecord [0; 1] [0%nat] [])
     [mkQuestion (py "6869.c2.test.") 1 1]).1.2
    !! 0%nat = Some (mkQuestion (py "hi.c2.test.") 1 1).
Proof.
  destruct (log_renames_in_place sample_DNSLabel_other sample_question_str
              sample_address_str sample_logger sample_sender
              (mkRecord [0; 1] [0%nat] [])
              [mkQuestion (py "6869.c2.test.") 1 1] 0%nat []
              (mkQuestion (py "6869.c2.test.") 1 1) eq_refl eq_refl)
    as [H _].
  apply (H (mkQuestion (py "hi.c2.test.") 1 1)). reflexivity.
Defined.
